(** * Verification of the checkpoint / incremental-write / skip-ledger pipeline
    of the mankan nutrition scraper.

    Shallow embedding of [src/checkpoint.py], [src/incremental_writer.py],
    [src/skipped_logger.py], [src/data_processor.py], the scrape loop of
    [src/scraper_fast.py] and the retry loop of [scripts/retry_skipped.py]. *)

From Stdlib Require Import List String Ascii Bool ZArith QArith Lia.
From Stdlib Require Import Qabs Permutation Sorting.Sorted DecimalString.
Import ListNotations.
Open Scope string_scope.
Open Scope list_scope.
Set Warnings "-register-all".

(* ------------------------------------------------------------------------- *)
(** ** Python values *)

(** Python floats: a finite value (kept as the exact rational it rounds from;
    only its sign and magnitude class matter below), an infinity, or NaN.
    Signed zero is not distinguished. *)
Inductive pfloat :=
| PFin (q : Q)
| PInf (neg : bool)
| PNaN.

(** The Python values a scraped row holds.  [VOther] is any other object
    (list, dict, ...): [float()] and [int()] raise TypeError on it, [str()]
    gives its repr, and its truthiness is carried along. *)
Inductive pyval :=
| VNone
| VBool (b : bool)
| VInt (z : Z)
| VFloat (f : pfloat)
| VStr (s : string)
| VOther (repr : string) (truthy : bool).

(** The exceptions the modelled code raises or catches. *)
Inductive pyexc :=
| ValueError
| TypeError
| OverflowError
| AttributeError
| JSONDecodeError
| UnicodeDecodeError
| OSError
| KeyboardInterrupt.

Definition is_base_exception (e : pyexc) : bool :=
  match e with KeyboardInterrupt => true | _ => false end.

(** Computations that may raise. *)
Inductive res (A : Type) :=
| Ok (a : A)
| Raise (e : pyexc).
Arguments Ok {A} a.
Arguments Raise {A} e.

(** Python truthiness. *)
Definition truthy (v : pyval) : bool :=
  match v with
  | VNone => false
  | VBool b => b
  | VInt z => negb (Z.eqb z 0)
  | VFloat (PFin q) => negb (Qeq_bool q 0)
  | VFloat _ => true
  | VStr s => negb (String.eqb s "")
  | VOther _ t => t
  end.

(** [v == ""] *)
Definition is_empty_str (v : pyval) : bool :=
  match v with VStr s => String.eqb s "" | _ => false end.

Definition is_none (v : pyval) : bool :=
  match v with VNone => true | _ => false end.

(** [q < 0] on a rational. *)
Definition q_neg (q : Q) : bool := (Qnum q <? 0)%Z.

(** [x < 0] on a float (NaN compares false). *)
Definition flt_lt0 (f : pfloat) : bool :=
  match f with
  | PFin q => q_neg q
  | PInf neg => neg
  | PNaN => false
  end.

(* ------------------------------------------------------------------------- *)
(** ** Python strings: [str.strip], [str()], [float()], [int()] *)

(** [str.isspace] on the code points 0..255. *)
Definition is_space (c : ascii) : bool :=
  let n := nat_of_ascii c in
  (((9 <=? n) && (n <=? 13)) || ((28 <=? n) && (n <=? 32))
   || (n =? 133) || (n =? 160))%nat.

Fixpoint drop_sp (l : list ascii) : list ascii :=
  match l with
  | [] => []
  | c :: r => if is_space c then drop_sp r else l
  end.

(** [s.strip()] *)
Definition strip_list (l : list ascii) : list ascii :=
  rev (drop_sp (rev (drop_sp l))).

Definition strip (s : string) : string :=
  string_of_list_ascii (strip_list (list_ascii_of_string s)).

Definition is_digit (c : ascii) : bool :=
  let n := nat_of_ascii c in ((48 <=? n) && (n <=? 57))%nat.

Definition digit_val (c : ascii) : Z := Z.of_nat (nat_of_ascii c - 48)%nat.

Definition lower (c : ascii) : ascii :=
  let n := nat_of_ascii c in
  if ((65 <=? n) && (n <=? 90))%nat then ascii_of_nat (n + 32)%nat else c.

(** A run of digits with single underscores between digits, as [float()]
    and [int()] accept it: the digits read and the rest of the input. *)
Fixpoint digitpart_aux (l : list ascii) (acc : list ascii)
  : list ascii * list ascii :=
  match l with
  | c :: r =>
      if is_digit c then digitpart_aux r (c :: acc)
      else if Ascii.eqb c "_"%char then
        match r with
        | d :: r' => if is_digit d then digitpart_aux r' (d :: acc)
                     else (rev acc, l)
        | [] => (rev acc, l)
        end
      else (rev acc, l)
  | [] => (rev acc, [])
  end.

(** At least one digit is required. *)
Definition digitpart (l : list ascii) : option (list ascii * list ascii) :=
  match l with
  | c :: _ => if is_digit c then Some (digitpart_aux l []) else None
  | [] => None
  end.

Definition digits_value (ds : list ascii) : Z :=
  fold_left (fun acc c => acc * 10 + digit_val c)%Z ds 0%Z.

Definition opt_sign (l : list ascii) : bool * list ascii :=
  match l with
  | c :: r =>
      if Ascii.eqb c "-"%char then (true, r)
      else if Ascii.eqb c "+"%char then (false, r)
      else (false, l)
  | [] => (false, [])
  end.

(** Rounding a decimal value to a double: below half the least subnormal it
    becomes zero, from the midpoint above the largest double it becomes an
    infinity; otherwise it is finite and keeps its sign. *)
Definition overflow_bound : Q := inject_Z (2 ^ 1024 - 2 ^ 970)%Z.
Definition underflow_bound : Q := 1 # (2 ^ 1075)%positive.

Definition round_q (q : Q) : pfloat :=
  if Qle_bool (Qabs q) underflow_bound then PFin 0
  else if Qle_bool overflow_bound (Qabs q) then PInf (q_neg q)
  else PFin q.

Definition pow10 (n : Z) : Q :=
  if (0 <=? n)%Z then inject_Z (10 ^ n) else 1 / inject_Z (10 ^ (- n)).

(** The decimal part of [float()]'s grammar: [digits [. [digits]] | . digits],
    then an optional exponent. *)
Definition parse_decimal (l : list ascii) : option Q :=
  let mant :=
    match digitpart l with
    | Some (ip, r) =>
        match r with
        | c :: r' =>
            if Ascii.eqb c "."%char then
              match digitpart r' with
              | Some (fp, r'') => Some (ip, fp, r'')
              | None => Some (ip, [], r')
              end
            else Some (ip, [], r)
        | [] => Some (ip, [], [])
        end
    | None =>
        match l with
        | c :: r' =>
            if Ascii.eqb c "."%char then
              match digitpart r' with
              | Some (fp, r'') => Some ([], fp, r'')
              | None => None
              end
            else None
        | [] => None
        end
    end in
  match mant with
  | None => None
  | Some (ip, fp, r) =>
      let n := digits_value (ip ++ fp) in
      let k := Z.of_nat (List.length fp) in
      let ex :=
        match r with
        | [] => Some 0%Z
        | c :: r' =>
            if Ascii.eqb (lower c) "e"%char then
              let (neg, r'') := opt_sign r' in
              match digitpart r'' with
              | Some (ed, []) =>
                  Some (if neg then - digits_value ed else digits_value ed)%Z
              | _ => None
              end
            else None
        end in
      match ex with
      | Some e => Some (inject_Z n * pow10 (e - k))%Q
      | None => None
      end
  end.

(** [float(s)] for a string [s]. *)
Definition float_of_string (s : string) : res pfloat :=
  let l := strip_list (list_ascii_of_string s) in
  let (neg, body) := opt_sign l in
  let word := string_of_list_ascii (map lower body) in
  if String.eqb word "inf" || String.eqb word "infinity" then Ok (PInf neg)
  else if String.eqb word "nan" then Ok PNaN
  else match parse_decimal body with
       | Some q => Ok (round_q (if neg then - q else q)%Q)
       | None => Raise ValueError
       end.

(** [int(s)] for a string [s] (base 10). *)
Definition int_of_string (s : string) : res Z :=
  let l := strip_list (list_ascii_of_string s) in
  let (neg, body) := opt_sign l in
  match digitpart body with
  | Some (ds, []) => Ok (if neg then - digits_value ds else digits_value ds)%Z
  | _ => Raise ValueError
  end.

(** [float(v)] *)
Definition py_float (v : pyval) : res pfloat :=
  match v with
  | VNone => Raise TypeError
  | VBool b => Ok (PFin (if b then 1 else 0))
  | VInt z =>
      if Qle_bool overflow_bound (inject_Z (Z.abs z)) then Raise OverflowError
      else Ok (PFin (inject_Z z))
  | VFloat f => Ok f
  | VStr s => float_of_string s
  | VOther _ _ => Raise TypeError
  end.

(** [int(v)] *)
Definition py_int (v : pyval) : res Z :=
  match v with
  | VNone => Raise TypeError
  | VBool b => Ok (if b then 1 else 0)%Z
  | VInt z => Ok z
  | VFloat (PFin q) => Ok (Z.quot (Qnum q) (Zpos (Qden q)))
  | VFloat (PInf _) => Raise OverflowError
  | VFloat PNaN => Raise ValueError
  | VStr s => int_of_string s
  | VOther _ _ => Raise TypeError
  end.

(** [str(v)]; the repr of a float is a parameter [float_str]. *)
Definition py_str (float_str : pfloat -> string) (v : pyval) : string :=
  match v with
  | VNone => "None"
  | VBool b => if b then "True" else "False"
  | VInt z => NilZero.string_of_int (Z.to_int z)
  | VFloat f => float_str f
  | VStr s => s
  | VOther r _ => r
  end.

(* ------------------------------------------------------------------------- *)
(** ** Rows: Python dicts with string keys *)

(** A dict as its items in insertion order; keys are distinct. *)
Definition dict := list (string * pyval).

Fixpoint dget (k : string) (d : dict) : option pyval :=
  match d with
  | [] => None
  | (k', v) :: r => if String.eqb k k' then Some v else dget k r
  end.

(** [d[k] = v]: an existing key keeps its position, a new one goes last. *)
Fixpoint dset (k : string) (v : pyval) (d : dict) : dict :=
  match d with
  | [] => [(k, v)]
  | (k', v') :: r =>
      if String.eqb k k' then (k', v) :: r else (k', v') :: dset k v r
  end.

(* ------------------------------------------------------------------------- *)
(** ** [DataProcessor] (src/data_processor.py) *)

Definition REQUIRED_FIELDS : list string :=
  ["food_name"; "measurement_unit"; "food_id"].

Definition NUMERIC_FIELDS : list string :=
  ["calories"; "fat_g"; "protein_g"; "carbs_g"; "fiber_g"; "sugar_g";
   "salt_g"; "measurement_value"].

Definition text_fields : list string := ["food_name"; "measurement_unit"].

(** [re.sub(r'[^\d.-]', '', value)] *)
Definition keep_numeric_chars (s : string) : string :=
  string_of_list_ascii
    (filter (fun c => is_digit c || Ascii.eqb c "."%char || Ascii.eqb c "-"%char)
            (list_ascii_of_string s)).

(** [except (ValueError, TypeError)] *)
Definition caught_value_type (e : pyexc) : bool :=
  match e with ValueError | TypeError => true | _ => false end.

(** The first loop of [clean_data]: strip the text fields. *)
Definition clean_text_field (float_str : pfloat -> string) (d : dict)
    (field : string) : dict :=
  match dget field d with
  | Some v => if truthy v then dset field (VStr (strip (py_str float_str v))) d
              else d
  | None => d
  end.

(** The body of the numeric loop of [clean_data] for one field. *)
Definition clean_numeric_field (d : dict) (field : string) : res dict :=
  match dget field d with
  | None => Ok d
  | Some value =>
      if is_none value || is_empty_str value then Ok (dset field VNone d)
      else
        let conv :=
          match value with
          | VStr s =>
              let numeric_str := keep_numeric_chars s in
              if String.eqb numeric_str "" then Ok VNone
              else match float_of_string numeric_str with
                   | Ok x => Ok (VFloat x)
                   | Raise e => Raise e
                   end
          | _ => match py_float value with
                 | Ok x => Ok (VFloat x)
                 | Raise e => Raise e
                 end
          end in
        match conv with
        | Ok v => Ok (dset field v d)
        | Raise e => if caught_value_type e then Ok (dset field VNone d)
                     else Raise e
        end
  end.

Fixpoint clean_numeric_fields (d : dict) (fields : list string) : res dict :=
  match fields with
  | [] => Ok d
  | f :: fs => match clean_numeric_field d f with
               | Ok d' => clean_numeric_fields d' fs
               | Raise e => Raise e
               end
  end.

(** [DataProcessor.clean_data]; [row.copy()] is implicit in the value
    semantics. *)
Definition clean_data (float_str : pfloat -> string) (row : dict) : res dict :=
  let cleaned := fold_left (clean_text_field float_str) text_fields row in
  match clean_numeric_fields cleaned NUMERIC_FIELDS with
  | Raise e => Raise e
  | Ok cleaned =>
      match dget "food_id" cleaned with
      | None => Ok cleaned
      | Some v =>
          match py_int v with
          | Ok z => Ok (dset "food_id" (VInt z) cleaned)
          | Raise e => if caught_value_type e then Ok cleaned else Raise e
          end
      end
  end.

(** Entries of [validation_errors]. *)
Inductive verr :=
| MissingField (field : string)
| NegativeValue (field : string) (x : pfloat)
| InvalidNumeric (field : string)
| InvalidFoodId.

Definition check_required (row : dict) (field : string) : list verr :=
  match dget field row with
  | None => [MissingField field]
  | Some v => if is_none v || is_empty_str v then [MissingField field] else []
  end.

Definition check_numeric (row : dict) (field : string) : res (list verr) :=
  match dget field row with
  | None => Ok []
  | Some value =>
      if is_none value then Ok []
      else if is_empty_str value then Ok []
      else match py_float value with
           | Ok x => if negb (String.eqb field "measurement_value") && flt_lt0 x
                     then Ok [NegativeValue field x] else Ok []
           | Raise e => if caught_value_type e then Ok [InvalidNumeric field]
                        else Raise e
           end
  end.

Fixpoint check_numerics (row : dict) (fields : list string) : res (list verr) :=
  match fields with
  | [] => Ok []
  | f :: fs => match check_numeric row f with
               | Raise e => Raise e
               | Ok es => match check_numerics row fs with
                          | Raise e => Raise e
                          | Ok es' => Ok (es ++ es')
                          end
               end
  end.

(** [DataProcessor.validate_row]: the list of validation errors; the row is
    accepted when it is empty. *)
Definition validation_errors (row : dict) : res (list verr) :=
  let req := flat_map (check_required row) REQUIRED_FIELDS in
  match check_numerics row NUMERIC_FIELDS with
  | Raise e => Raise e
  | Ok num =>
      let fid :=
        match dget "food_id" row with
        | None => Ok []
        | Some v => match py_int v with
                    | Ok _ => Ok []
                    | Raise e => if caught_value_type e then Ok [InvalidFoodId]
                                 else Raise e
                    end
        end in
      match fid with
      | Raise e => Raise e
      | Ok fe => Ok (req ++ num ++ fe)
      end
  end.

Definition validate_row (row : dict) : res bool :=
  match validation_errors row with
  | Raise e => Raise e
  | Ok [] => Ok true
  | Ok _ => Ok false
  end.

(** [DataProcessor.process_batch] *)
Fixpoint process_batch (float_str : pfloat -> string) (rows : list dict)
  : res (list dict) :=
  match rows with
  | [] => Ok []
  | row :: rest =>
      match clean_data float_str row with
      | Raise e => Raise e
      | Ok cleaned =>
          match validate_row cleaned with
          | Raise e => Raise e
          | Ok ok =>
              match process_batch float_str rest with
              | Raise e => Raise e
              | Ok out => Ok (if ok then cleaned :: out else out)
              end
          end
      end
  end.

(* ------------------------------------------------------------------------- *)
(** ** JSON documents and [CheckpointManager] (src/checkpoint.py) *)

(** The values [json.load] returns. *)
Inductive json :=
| JNull
| JBool (b : bool)
| JInt (z : Z)
| JFloat (f : pfloat)
| JStr (s : string)
| JArr (l : list json)
| JObj (fields : list (string * json)).

(** What is at a path, classified by what reading it with
    [open(..., encoding="utf-8")] and [json.load] does: a JSON document
    (written by [json.dump]), text that [json.load] rejects
    ([JSONDecodeError]), bytes that are not UTF-8 ([UnicodeDecodeError]), a
    file that cannot be opened or read ([OSError]), or a directory ([open]
    raises IsADirectoryError, and [shutil.copy2] onto it copies into it).
    [CStatFails] is a path whose [os.stat] raises an OSError other than
    not-found (PermissionError when the directory cannot be searched,
    ENAMETOOLONG, ...): [Path.exists()] re-raises it on Python 3.12 and
    earlier. *)
Inductive content :=
| CJson (v : json)
| CNotJson
| CUndecodable
| CUnreadable
| CDir
| CStatFails.

(** The checkpoint directory: the primary file and its [.json.bak] sibling. *)
Record ckpt_fs := mk_fs {
  primary : option content;
  backup : option content
}.

(** A [CheckpointManager]: the directory and [self.data]. *)
Record ckpt_mgr := mk_mgr {
  fs : ckpt_fs;
  mdata : json
}.

Fixpoint jget (k : string) (fields : list (string * json)) : option json :=
  match fields with
  | [] => None
  | (k', v) :: r => if String.eqb k k' then Some v else jget k r
  end.

(** [d.get(k)] on a JSON value that must be a dict. *)
Definition field (k : string) (v : json) : option json :=
  match v with JObj fs => jget k fs | _ => None end.

Definition zero_state : json :=
  JObj [("completed_ids", JArr []); ("data", JArr []);
        ("last_checkpoint", JNull); ("total_scraped", JInt 0)].

(** [len(x)] is defined. *)
Definition has_len (v : json) : bool :=
  match v with JStr _ | JArr _ | JObj _ => true | _ => false end.

(** The statements after [json.load] in [load] succeed:
    [len(self.data.get("completed_ids", []))] and [self.data.get(...)]
    raise AttributeError on a non-dict and TypeError on an unsized value. *)
Definition loaded_ok (v : json) : bool :=
  match v with
  | JObj fs => match jget "completed_ids" fs with
               | None => true
               | Some c => has_len c
               end
  | _ => false
  end.

(** [CheckpointManager._try_backup_recovery]: [backup_path.exists()] runs
    outside the [try]; reading and parsing the [.bak] inside it. *)
Definition try_backup_recovery (m : ckpt_mgr) : res (json * ckpt_mgr) :=
  match backup (fs m) with
  | Some CStatFails => Raise OSError
  | Some (CJson v) => Ok (v, mk_mgr (fs m) v)
  | _ => Ok (zero_state, m)
  end.

(** [CheckpointManager.load]: the returned dict and the manager afterwards.
    [checkpoint_path.exists()] runs before the [try]; the [except
    json.JSONDecodeError] handler calls [_try_backup_recovery], whose
    exception leaves [load]; [except Exception] gives the zero-value state. *)
Definition load (m : ckpt_mgr) : res (json * ckpt_mgr) :=
  match primary (fs m) with
  | None => Ok (zero_state, m)
  | Some CStatFails => Raise OSError
  | Some (CJson v) =>
      let m' := mk_mgr (fs m) v in
      if loaded_ok v then Ok (v, m') else Ok (zero_state, m')
  | Some CNotJson => try_backup_recovery m
  | Some CUndecodable | Some CUnreadable | Some CDir => Ok (zero_state, m)
  end.

(** [sorted()] on a list of ints. *)
Fixpoint insert_sorted (x : Z) (l : list Z) : list Z :=
  match l with
  | [] => [x]
  | y :: r => if (x <=? y)%Z then x :: l else y :: insert_sorted x r
  end.

Fixpoint sort_ints (l : list Z) : list Z :=
  match l with
  | [] => []
  | x :: r => insert_sorted x (sort_ints r)
  end.

(** How [shutil.copy2(primary, backup)] ends: it succeeds, or it raises and
    leaves the backup path in some state. *)
Inductive copy_outcome :=
| CopyOk
| CopyFails (left_behind : option content).

(** The outcomes of the I/O steps of one [save]: the backup copy, creating and
    filling the temporary file, and [os.replace]. *)
Record save_io := mk_io {
  copy_res : copy_outcome;
  tmp_ok : bool;
  replace_ok : bool
}.

Definition checkpoint_data (completed_ids : list Z) (data : list json)
    (now : string) : json :=
  JObj [("completed_ids", JArr (map JInt (sort_ints completed_ids)));
        ("data", JArr data);
        ("last_checkpoint", JStr now);
        ("total_scraped", JInt (Z.of_nat (List.length data)))].

(** What a successful [shutil.copy2(checkpoint_path, backup_path)] leaves at
    the backup path: a copy of the primary, except that a directory there
    receives the copy inside it and stays a directory. *)
Definition copied_backup (c : content) (b : option content) : option content :=
  match b with
  | Some CDir => Some CDir
  | _ => Some c
  end.

(** [CheckpointManager.save]: one [try] around the existence check and
    backup copy, the temporary-file write and the rename; any exception
    gives [False]. *)
Definition save (m : ckpt_mgr) (completed_ids : list Z) (data : list json)
    (force : bool) (now : string) (io : save_io) : ckpt_mgr * bool :=
  let fs0 := fs m in
  let copied :=
    match primary fs0 with
    | None => Ok fs0
    | Some CStatFails => Raise OSError
    | Some c => match copy_res io with
                | CopyOk => Ok (mk_fs (primary fs0) (copied_backup c (backup fs0)))
                | CopyFails b => Raise OSError
                end
    end in
  match copied with
  | Raise _ =>
      let b := match primary fs0, copy_res io with
               | Some CStatFails, _ => backup fs0
               | _, CopyFails b => b
               | _, CopyOk => backup fs0
               end in
      (mk_mgr (mk_fs (primary fs0) b) (mdata m), false)
  | Ok fs1 =>
      let cd := checkpoint_data completed_ids data now in
      if negb (tmp_ok io) then (mk_mgr fs1 (mdata m), false)
      else if negb (replace_ok io) then (mk_mgr fs1 (mdata m), false)
      else (mk_mgr (mk_fs (Some (CJson cd)) (backup fs1)) cd, true)
  end.

(* ------------------------------------------------------------------------- *)
(** ** [IncrementalWriter] (src/incremental_writer.py) *)

(** The field names of [IncrementalWriter.COLUMNS], in order. *)
Definition COLUMNS : list string :=
  ["food_name"; "measurement_unit"; "calories"; "fat_g"; "protein_g";
   "carbs_g"; "fiber_g"; "sugar_g"; "salt_g"; "measurement_value"; "food_id"].

Definition HEADERS : list string :=
  ["Food Name"; "Measurement Unit"; "Calories"; "Fat (g)"; "Protein (g)";
   "Carbs (g)"; "Fiber (g)"; "Sugar (g)"; "Salt (g)"; "Measurement Value";
   "Food ID"].

(** [col.endswith('_g')] *)
Definition ends_with_g (s : string) : bool :=
  match rev (list_ascii_of_string s) with
  | g :: u :: _ => Ascii.eqb g "g"%char && Ascii.eqb u "_"%char
  | _ => false
  end.

Definition is_numeric_col (col : string) : bool :=
  ends_with_g col || String.eqb col "calories"
  || String.eqb col "measurement_value".

(** The value [_append_csv] gives a column absent from the frame. *)
Definition csv_default (col : string) : pyval :=
  if is_numeric_col col then VFloat (PFin 0)
  else if String.eqb col "food_name" || String.eqb col "measurement_unit"
  then VStr ""
  else VNone.

Definition str_mem (x : string) (l : list string) : bool :=
  existsb (String.eqb x) l.

(** The columns of [pd.DataFrame(data)] for a list of dicts: every key, in
    order of first appearance. *)
Definition frame_columns (data : list dict) : list string :=
  fold_left (fun cols (r : dict) =>
               fold_left (fun cols (kv : string * pyval) =>
                            if str_mem (fst kv) cols then cols
                            else cols ++ [fst kv]) r cols)
            data [].

(** The flags of pandas' [lib.maybe_convert_objects] scan of one column of
    [pd.DataFrame(data)]: the object array of the records' values, with
    [np.nan] for a record that lacks the key. *)
Record seen := mk_seen {
  seen_null : bool;
  seen_nan : bool;
  seen_float : bool;
  seen_int : bool;
  seen_sint : bool;
  seen_uint : bool;
  seen_bool : bool
}.

Definition seen0 : seen := mk_seen false false false false false false false.

Definition INT64_MIN : Z := (- 2 ^ 63)%Z.
Definition INT64_MAX : Z := (2 ^ 63 - 1)%Z.
Definition UINT64_MAX : Z := (2 ^ 64 - 1)%Z.

(** The scan; [None] when it breaks off at a value that makes the column an
    object column (a str or other object, or, before any None, an int out of
    the 64-bit ranges or mixing negative and above-int64 values). *)
Fixpoint scan_column (sn : seen) (cells : list (option pyval)) : option seen :=
  match cells with
  | [] => Some sn
  | c :: rest =>
      let '(mk_seen nl na fl it si ui bo) := sn in
      match c with
      | None | Some (VFloat PNaN) => scan_column (mk_seen nl true fl it si ui bo) rest
      | Some VNone => scan_column (mk_seen true na fl it si ui bo) rest
      | Some (VBool _) => scan_column (mk_seen nl na fl it si ui true) rest
      | Some (VFloat _) => scan_column (mk_seen nl na true it si ui bo) rest
      | Some (VInt z) =>
          if nl then scan_column (mk_seen nl na fl true si ui bo) rest
          else
            let si' := si || ((INT64_MIN <=? z) && (z <? 0))%Z in
            let ui' := ui || ((INT64_MAX <? z) && (z <=? UINT64_MAX))%Z in
            if (si' && ui') || (UINT64_MAX <? z)%Z || (z <? INT64_MIN)%Z then None
            else scan_column (mk_seen nl na fl true si' ui' bo) rest
      | Some (VStr _) | Some (VOther _ _) => None
      end
  end.

(** The column becomes float64: with a None or NaN, when it holds a float,
    an int or a NaN; otherwise when it holds a float.  A column with a bool
    and anything else, or one that broke off, stays an object column; an
    all-int or all-bool column keeps its values. *)
Definition column_is_float (cells : list (option pyval)) : bool :=
  match scan_column seen0 cells with
  | None => false
  | Some sn =>
      if seen_bool sn then false
      else if seen_null sn || seen_nan sn
      then seen_float sn || seen_int sn || seen_nan sn
      else seen_float sn
  end.

(** A cell of a typed column: in a float64 column an int becomes the float
    it rounds to (an int too large for a double, of 309 digits or more, is
    not covered), and None or a missing key becomes NaN; in any other column
    the value is kept, a missing key being NaN.  [to_csv] writes NaN and
    None as an empty field. *)
Definition typed_cell (is_float : bool) (c : option pyval) : pyval :=
  if is_float then
    match c with
    | Some (VInt z) => VFloat (PFin (inject_Z z))
    | Some (VFloat f) => VFloat f
    | _ => VFloat PNaN
    end
  else match c with Some v => v | None => VFloat PNaN end.

(** The cell of record [r] in column [col] of [pd.DataFrame(data)]. *)
Definition frame_cell (data : list dict) (r : dict) (col : string) : pyval :=
  typed_cell (column_is_float (map (dget col) data)) (dget col r).

(** The rows of [df] after the back-fill loop and
    [df.reindex(columns=column_order)]. *)
Definition csv_rows (data : list dict) : list (list pyval) :=
  let cols := frame_columns data in
  map (fun r => map (fun c => if str_mem c cols then frame_cell data r c
                              else csv_default c) COLUMNS) data.

Definition header_row : list pyval := map VStr COLUMNS.

(** The writer's files and fields. *)
Record writer := mk_writer {
  pending : list dict;
  csv_file : list (list pyval);
  csv_exists : bool;
  xlsx_rows : list (list pyval);
  excel_exists : bool;
  batch_size : nat
}.

(** How [df.to_csv] ends: it succeeds, or it raises and leaves the file in
    some state. *)
Inductive csv_outcome :=
| CsvOk
| CsvFails (e : pyexc) (left_behind : list (list pyval)).

(** The I/O outcomes of one [_append_excel]: loading the existing workbook
    (a failure is caught and a new workbook is started) and the
    temporary-file save and replace (a failure propagates). *)
Record xlsx_io := mk_xio {
  wb_load_ok : bool;
  wb_save : option pyexc
}.

Definition with_csv (w : writer) (f : list (list pyval)) (ex : bool) : writer :=
  mk_writer (pending w) f ex (xlsx_rows w) (excel_exists w) (batch_size w).

Definition with_xlsx (w : writer) (x : list (list pyval)) (ex : bool) : writer :=
  mk_writer (pending w) (csv_file w) (csv_exists w) x ex (batch_size w).

Definition with_pending (w : writer) (p : list dict) : writer :=
  mk_writer p (csv_file w) (csv_exists w) (xlsx_rows w) (excel_exists w)
    (batch_size w).

(** [IncrementalWriter._append_csv] *)
Definition append_csv (w : writer) (data : list dict) (o : csv_outcome)
  : writer * option pyexc :=
  match data with
  | [] => (w, None)
  | _ =>
      let rows := csv_rows data in
      match o with
      | CsvFails e rest => (with_csv w rest (csv_exists w), Some e)
      | CsvOk =>
          let f := if csv_exists w then csv_file w ++ rows
                   else header_row :: rows in
          (with_csv w f true, None)
      end
  end.

(** What a worksheet cell holds once the workbook is saved and loaded
    again: openpyxl writes an empty string as an empty cell, which loads as
    None. *)
Definition saved_value (v : pyval) : pyval :=
  match v with
  | VStr s => if String.eqb s "" then VNone else v
  | _ => v
  end.

(** One worksheet row of [_append_excel], as saved: [row_data.get(field)],
    with a missing numeric value written as 0.0 and any other missing value
    as "". *)
Definition xlsx_cell (r : dict) (col : string) : pyval :=
  saved_value
    (match dget col r with
     | None | Some VNone => if is_numeric_col col then VFloat (PFin 0) else VStr ""
     | Some v => v
     end).

Definition xlsx_row (r : dict) : list pyval := map (xlsx_cell r) COLUMNS.

(** [IncrementalWriter._append_excel]; the sheet is kept as its rows, the
    first being the header. *)
Definition append_excel (w : writer) (data : list dict) (io : xlsx_io)
  : writer * option pyexc :=
  match data with
  | [] => (w, None)
  | _ =>
      let base := if excel_exists w && wb_load_ok io then xlsx_rows w
                  else [map VStr HEADERS] in
      let sheet := base ++ map xlsx_row data in
      match wb_save io with
      | Some e => (w, Some e)
      | None => (with_xlsx w sheet true, None)
      end
  end.

(** [IncrementalWriter.flush]: the buffer is cleared only after both sinks
    were written; an exception is logged and re-raised. *)
Definition flush (w : writer) (co : csv_outcome) (xo : xlsx_io)
  : writer * option pyexc :=
  match pending w with
  | [] => (w, None)
  | p =>
      match append_csv w p co with
      | (w1, Some e) => (w1, Some e)
      | (w1, None) =>
          match append_excel w1 p xo with
          | (w2, Some e) => (w2, Some e)
          | (w2, None) => (with_pending w2 [], None)
          end
      end
  end.

(* ------------------------------------------------------------------------- *)
(** ** [SkippedLogger] (src/skipped_logger.py) *)

(** One element of [skipped_items]. *)
Record skip_entry := mk_entry {
  e_food_id : Z;
  e_timestamp : string;
  e_error_type : string;
  e_error_message : string;
  e_reason : string;
  e_traceback : string
}.

(** What [log_skipped] reads from an exception object: [type(e).__name__],
    [str(e)] and the formatted traceback. *)
Record exn_info := mk_exn {
  x_type : string;
  x_msg : string;
  x_tb : string
}.

(** The logger: [self.skipped_items] and the contents of the log file. *)
Record skip_logger := mk_logger {
  items : list skip_entry;
  log_file : list skip_entry
}.

(** [a or b] on optional strings ([None] and [""] are falsy). *)
Definition or_str (a : option string) (b : string) : string :=
  match a with
  | Some s => if String.eqb s "" then b else s
  | None => b
  end.

Definition or_opt (a : option string) (b : option string) : option string :=
  match a with
  | Some s => if String.eqb s "" then b else a
  | None => b
  end.

(** [SkippedLogger._save]: [None] when the temp-file write and replace
    succeed, [Some i] when they raise [i] (re-raised to the caller). *)
Definition save_ledger (lg : skip_logger) (outcome : option exn_info)
  : skip_logger * option exn_info :=
  match outcome with
  | None => (mk_logger (items lg) (items lg), None)
  | Some i => (lg, Some i)
  end.

(** The entry [log_skipped] builds. *)
Definition make_entry (food_id : Z) (error : option exn_info)
    (error_message : option string) (reason : option string) (now : string)
  : skip_entry :=
  let '(etype, emsg, etb) :=
    match error with
    | Some e => (Some (x_type e), Some (x_msg e), Some (x_tb e))
    | None =>
        if negb (String.eqb (or_str error_message "") "")
        then (Some "Unknown", error_message, None)
        else (None, None, None)
    end in
  mk_entry food_id now (or_str etype "Unknown")
    (or_str (or_opt emsg error_message) "No error details")
    (or_str reason "unknown") (or_str etb "").

(** The loop looking for [item.get("food_id") == food_id]. *)
Fixpoint find_index (food_id : Z) (l : list skip_entry) : option nat :=
  match l with
  | [] => None
  | e :: r => if (e_food_id e =? food_id)%Z then Some 0%nat
              else option_map S (find_index food_id r)
  end.

(** [self.skipped_items[i] = x] *)
Fixpoint replace_at (i : nat) (x : skip_entry) (l : list skip_entry)
  : list skip_entry :=
  match l, i with
  | [], _ => []
  | _ :: r, O => x :: r
  | y :: r, S j => y :: replace_at j x r
  end.

(** [SkippedLogger.log_skipped]: upsert, then [_save] (whose exception
    propagates after the in-memory list was updated). *)
Definition log_skipped (lg : skip_logger) (food_id : Z)
    (error : option exn_info) (error_message : option string)
    (reason : option string) (now : string) (save_outcome : option exn_info)
  : skip_logger * option exn_info :=
  let entry := make_entry food_id error error_message reason now in
  let its :=
    match find_index food_id (items lg) with
    | Some i => replace_at i entry (items lg)
    | None => items lg ++ [entry]
    end in
  save_ledger (mk_logger its (log_file lg)) save_outcome.

(** [SkippedLogger.remove_skipped]: the logger, the returned flag, and the
    exception of [_save] if it raised. *)
Definition remove_skipped (lg : skip_logger) (food_id : Z)
    (save_outcome : option exn_info) : skip_logger * bool * option exn_info :=
  let its := filter (fun e => negb (e_food_id e =? food_id)%Z) (items lg) in
  let lg1 := mk_logger its (log_file lg) in
  if (List.length its <? List.length (items lg))%nat then
    let (lg2, r) := save_ledger lg1 save_outcome in (lg2, true, r)
  else (lg1, false, None).

(** The entries of the ledger for one id. *)
Definition entries_for (food_id : Z) (l : list skip_entry) : list skip_entry :=
  filter (fun e => (e_food_id e =? food_id)%Z) l.

(** One [log_skipped] call. *)
Record log_call := mk_call {
  c_food_id : Z;
  c_error : option exn_info;
  c_error_message : option string;
  c_reason : option string;
  c_now : string;
  c_save : option exn_info
}.

(** A sequence of calls; an exception of [_save] propagates to the caller,
    which may go on calling. *)
Definition run_calls (lg : skip_logger) (calls : list log_call) : skip_logger :=
  fold_left (fun lg c => fst (log_skipped lg (c_food_id c) (c_error c)
                                 (c_error_message c) (c_reason c) (c_now c)
                                 (c_save c))) calls lg.

Definition call_entry (c : log_call) : skip_entry :=
  make_entry (c_food_id c) (c_error c) (c_error_message c) (c_reason c) (c_now c).

(* ------------------------------------------------------------------------- *)
(** ** The retry loop of [scripts/retry_skipped.py] *)

(** What [scraper.scrape_item(food_id)] does: it returns a list of rows,
    raises an [Exception], or is interrupted ([KeyboardInterrupt]). *)
Inductive scrape_res :=
| Records (rows : list dict)
| ScrapeRaises (info : exn_info)
| ScrapeInterrupted.

(** The outcomes the retry loop depends on: the scrape of each id, whether
    [incremental_writer.add_data(data)] raises for it (its flush raising),
    and the outcome of every write of the ledger file. *)
Record retry_env := mk_renv {
  r_scrape : Z -> scrape_res;
  r_add : Z -> option exn_info;
  r_ledger_save : option exn_info;
  r_now : string
}.

(** [except Exception as e: ... skipped_logger.log_skipped(food_id=food_id,
    error=e, reason="retry_failed")]; [false] when that call raises, which
    ends the loop (the outer handler exits). *)
Definition retry_failed_path (env : retry_env) (lg : skip_logger) (food_id : Z)
    (e : exn_info) : skip_logger * bool :=
  let (lg1, r) := log_skipped lg food_id (Some e) None (Some "retry_failed")
                    (r_now env) (r_ledger_save env) in
  (lg1, match r with None => true | Some _ => false end).

(** The body of [for idx, food_id in enumerate(skipped_ids, 1)]: the logger
    afterwards and whether the loop goes on. *)
Definition retry_one (env : retry_env) (lg : skip_logger) (food_id : Z)
  : skip_logger * bool :=
  match r_scrape env food_id with
  | ScrapeInterrupted => (lg, false)
  | ScrapeRaises e => retry_failed_path env lg food_id e
  | Records [] => (lg, true)
  | Records _ =>
      match r_add env food_id with
      | Some e => retry_failed_path env lg food_id e
      | None =>
          match remove_skipped lg food_id (r_ledger_save env) with
          | (lg1, _, None) => (lg1, true)
          | (lg1, _, Some e) => retry_failed_path env lg1 food_id e
          end
      end
  end.

Fixpoint retry_loop (env : retry_env) (lg : skip_logger) (ids : list Z)
  : skip_logger :=
  match ids with
  | [] => lg
  | id :: rest =>
      let (lg1, go) := retry_one env lg id in
      if go then retry_loop env lg1 rest else lg1
  end.

(* ------------------------------------------------------------------------- *)
(** ** The scrape loop of [FastMankanScraper.scrape_all] (src/scraper_fast.py) *)

(** The calls the loop makes on its collaborators, in order. *)
Inductive event :=
| EAddData (food_id : Z)
| ELogSkipped (food_id : Z) (reason : string)
| ECheckpointSave (force : bool)
| EFinalize
| ECloseBrowser.

(** The [print(..., flush=True)] calls of one iteration: the progress line
    before the item's [try], the lines after a stored item, a skipped item
    and a periodic checkpoint inside it, and the error line in its [except]
    handler.  Writing to stdout can raise (BrokenPipeError on a closed pipe,
    UnicodeEncodeError for a non-ASCII mark on a narrow encoding). *)
Inductive print_site :=
| PProgress
| PDone
| PNoData
| PCheckpoint
| PError.

(** The outcomes [scrape_all] depends on. *)
Record scrape_env := mk_senv {
  s_scrape : Z -> scrape_res;
  s_add_raises : Z -> bool;      (* [incremental_writer.add_data] raises *)
  s_ledger_ok : bool;            (* [skipped_logger._save] succeeds *)
  s_finalize_raises : bool;      (* the finalize call after the loop raises *)
  s_checkpoint_frequency : Z;
  s_print : print_site -> Z -> option pyexc;  (* what that print raises *)
  s_sleep_interrupted : Z -> bool;  (* KeyboardInterrupt in [time.sleep] *)
  s_summary_print : option pyexc    (* what the summary prints raise *)
}.

Record loop_state := mk_ls {
  completed : list Z;
  trace : list event
}.

Definition emit (st : loop_state) (ev : event) : loop_state :=
  mk_ls (completed st) (trace st ++ [ev]).

(** The [except Exception] handler of one item: log it as skipped with
    reason "exception", then print the error line; if either raises, the
    exception leaves the loop. *)
Definition item_handler (env : scrape_env) (st : loop_state) (food_id : Z)
  : loop_state * bool :=
  let st1 := emit st (ELogSkipped food_id "exception") in
  if negb (s_ledger_ok env) then (st1, false)
  else match s_print env PError food_id with
       | Some _ => (st1, false)
       | None => (st1, true)
       end.

(** An exception raised inside the item's [try]: an [Exception] goes to the
    handler, a [BaseException] ([KeyboardInterrupt]) leaves the loop. *)
Definition raise_in_try (env : scrape_env) (st : loop_state) (food_id : Z)
    (e : pyexc) : loop_state * bool :=
  if is_base_exception e then (st, false) else item_handler env st food_id.

(** The periodic checkpoint: [len(completed_ids) % (checkpoint_frequency * 2)];
    a zero modulus raises ZeroDivisionError inside the item's [try]. *)
Definition periodic_checkpoint (env : scrape_env) (st : loop_state) (food_id : Z)
  : loop_state * bool :=
  let k := (s_checkpoint_frequency env * 2)%Z in
  if (k =? 0)%Z then item_handler env st food_id
  else if (Z.of_nat (List.length (completed st)) mod k =? 0)%Z
  then let st1 := emit st (ECheckpointSave false) in
       match s_print env PCheckpoint food_id with
       | Some e => raise_in_try env st1 food_id e
       | None => (st1, true)
       end
  else (st, true).

(** The item's [try] block and its handler. *)
Definition item_body (env : scrape_env) (st : loop_state) (food_id : Z)
  : loop_state * bool :=
  match s_scrape env food_id with
  | ScrapeInterrupted => (st, false)
  | ScrapeRaises _ => item_handler env st food_id
  | Records [] =>
      let st1 := emit st (ELogSkipped food_id "no_data") in
      if negb (s_ledger_ok env) then item_handler env st1 food_id
      else match s_print env PNoData food_id with
           | Some e => raise_in_try env st1 food_id e
           | None => periodic_checkpoint env st1 food_id
           end
  | Records _ =>
      let st1 := mk_ls (completed st ++ [food_id]) (trace st) in
      let st2 := emit st1 (EAddData food_id) in
      if s_add_raises env food_id then item_handler env st2 food_id
      else match s_print env PDone food_id with
           | Some e => raise_in_try env st2 food_id e
           | None => periodic_checkpoint env st2 food_id
           end
  end.

(** One iteration of [for food_id in food_ids_to_scrape]: the progress
    print, the [try]/[except], then [time.sleep(0.05)]; the state and
    whether the loop goes on ([false]: an exception left the loop). *)
Definition scrape_one (env : scrape_env) (st : loop_state) (food_id : Z)
  : loop_state * bool :=
  match s_print env PProgress food_id with
  | Some _ => (st, false)
  | None =>
      let (st1, go) := item_body env st food_id in
      if go then (st1, negb (s_sleep_interrupted env food_id)) else (st1, false)
  end.

Fixpoint scrape_loop (env : scrape_env) (st : loop_state) (ids : list Z)
  : loop_state * bool :=
  match ids with
  | [] => (st, true)
  | id :: rest =>
      let (st1, go) := scrape_one env st id in
      if go then scrape_loop env st1 rest else (st1, false)
  end.

(** How [scrape_all] ends. *)
Inductive exit_kind :=
| Returned
| Escaped.

(** The ids [scrape_all] scrapes: those not already completed. *)
Definition ids_to_scrape (completed_ids food_ids : list Z) : list Z :=
  filter (fun fid => negb (existsb (Z.eqb fid) completed_ids)) food_ids.

(** [FastMankanScraper.scrape_all] from its [try]: the ids not yet completed
    are scraped; after the loop, the forced checkpoint save, [finalize] and
    the summary prints; the [finally] block calls [finalize] again (its
    exception is logged) and closes the browser. *)
Definition scrape_all (env : scrape_env) (completed_ids : list Z)
    (food_ids : list Z) : list event * exit_kind :=
  let todo := ids_to_scrape completed_ids food_ids in
  let (st, finished) := scrape_loop env (mk_ls completed_ids []) todo in
  let (tr, ex) :=
    if finished then
      (trace st ++ [ECheckpointSave true; EFinalize],
       if s_finalize_raises env then Escaped
       else match s_summary_print env with
            | Some _ => Escaped
            | None => Returned
            end)
    else (trace st, Escaped) in
  (tr ++ [EFinalize; ECloseBrowser], ex).

(* ------------------------------------------------------------------------- *)
(** ** Claims as stated and sample inputs *)

Definition demo_mgr : ckpt_mgr :=
  mk_mgr (mk_fs (Some (CJson zero_state)) None) (JObj []).

Definition demo_io : save_io := mk_io CopyOk true true.

(** The claim as stated: with a primary file present, a failing backup copy
    does not stop the primary from being written and [save] from returning
    True. *)
Definition backup_best_effort : Prop :=
  forall m S R force now io b,
    primary (fs m) <> None -> copy_res io = CopyFails b ->
    tmp_ok io = true -> replace_ok io = true ->
    snd (save m S R force now io) = true
    /\ primary (fs (fst (save m S R force now io)))
       = Some (CJson (checkpoint_data S R now)).

(** Content that is not a usable checkpoint. *)
Definition invalid_content (c : content) : Prop :=
  match c with CJson v => loaded_ok v = false | _ => True end.

(** The claim's first half as stated: invalid primary content with a valid
    [.bak] gives the [.bak] contents. *)
Definition corrupt_fallback_to_backup : Prop :=
  forall m c v, primary (fs m) = Some c -> invalid_content c ->
    backup (fs m) = Some (CJson v) -> loaded_ok v = true ->
    exists m', load m = Ok (v, m').

Definition demo_backup : json := checkpoint_data [7%Z] [] "t".

Definition demo_row : dict := [("food_name", VStr "x")].

Definition demo_writer : writer := mk_writer [demo_row] [] false [] false 50.

(** Some record of the batch has the key [c]. *)
Definition key_in_batch (c : string) (data : list dict) : bool :=
  existsb (fun r => match dget c r with Some _ => true | None => false end) data.

(** The claim as stated: every written row has the eleven columns, and a
    numeric column or the id column that a record does not carry is
    written as 0.0. *)
Definition csv_backfill_zero : Prop :=
  forall data, data <> [] ->
  forall r row, In (r, row) (combine data (csv_rows data)) ->
    List.length row = 11%nat
    /\ forall i c, nth_error COLUMNS i = Some c ->
       (is_numeric_col c = true \/ c = "food_id") -> dget c r = None ->
       nth_error row i = Some (VFloat (PFin 0)).

Definition demo_entry (id : Z) (reason : string) : skip_entry :=
  mk_entry id "t0" "Unknown" "No data extracted from page" reason "".

Definition demo_logger : skip_logger :=
  mk_logger [demo_entry 42 "no_data"] [demo_entry 42 "no_data"].

Definition demo_call (reason : string) : log_call :=
  mk_call 42 None (Some "boom") (Some reason) "t1" None.

(** What one retried id leaves in the ledger for itself, given its entries
    before, when the ledger file writes succeed. *)
Definition retry_effect (env : retry_env) (id : Z) (old : list skip_entry)
  : list skip_entry :=
  match r_scrape env id with
  | ScrapeInterrupted => old
  | ScrapeRaises e => [make_entry id (Some e) None (Some "retry_failed") (r_now env)]
  | Records [] => old
  | Records _ =>
      match r_add env id with
      | Some e => [make_entry id (Some e) None (Some "retry_failed") (r_now env)]
      | None => []
      end
  end.

(** The claim as stated, for the id being retried: a scrape that yields
    records removes its entry; a scrape that yields nothing or raises
    leaves one entry for it, with reason "retry_failed". *)
Definition retry_ledger_claim : Prop :=
  forall env lg id,
    r_ledger_save env = None -> NoDup (map e_food_id (items lg)) ->
    let after := entries_for id (items (retry_loop env lg [id])) in
    match r_scrape env id with
    | Records (_ :: _) => after = []
    | Records [] | ScrapeRaises _ =>
        exists e, after = [e] /\ e_reason e = "retry_failed"
    | ScrapeInterrupted => True
    end.

Definition demo_retry_env : retry_env :=
  mk_renv (fun _ => Records []) (fun _ => None) None "t1".

Definition demo_ledger2 : skip_logger :=
  mk_logger [demo_entry 41 "no_data"; demo_entry 42 "exception"]
            [demo_entry 41 "no_data"; demo_entry 42 "exception"].

Definition demo_retry_env2 : retry_env :=
  mk_renv (fun id => if (id =? 41)%Z then Records [demo_row]
                     else ScrapeRaises (mk_exn "TimeoutError" "timeout" "tb"))
          (fun _ => None) None "t1".




Definition demo_scrape_env : scrape_env :=
  mk_senv (fun _ => Records [demo_row]) (fun _ => false) true false 10
    (fun _ _ => None) (fun _ => false) None.

(** The claim C8 as stated: every numeric field of an output row of
    [process_batch] is null or a finite non-negative float. *)
Definition numeric_fields_finite_nonneg : Prop :=
  forall float_str rows out, process_batch float_str rows = Ok out ->
  forall r f v, In r out -> In f NUMERIC_FIELDS -> dget f r = Some v ->
    v = VNone \/ exists q, v = VFloat (PFin q) /\ q_neg q = false.

Definition demo_float_str (f : pfloat) : string := "0.0".

Definition demo_raw_row (mv : pyval) : dict :=
  [("food_name", VStr " rice "); ("measurement_unit", VStr "g");
   ("food_id", VStr "12"); ("calories", VStr "130 kcal");
   ("measurement_value", mv)].

(** A numeric field after the numeric loop: absent, None or a float. *)
Definition numeric_shape (f : string) (d : dict) : Prop :=
  match dget f d with
  | None | Some VNone | Some (VFloat _) => True
  | Some _ => False
  end.

(** A text field after the text loop: absent, falsy, or a stripped string. *)
Definition text_shape (f : string) (d : dict) : Prop :=
  match dget f d with
  | Some v => truthy v = false \/ exists s, v = VStr s /\ strip s = s
  | None => True
  end.

(** [food_id] after [clean_data]: absent, an int, or a value [int()] rejects
    with an exception [clean_data] catches. *)
Definition food_id_shape (d : dict) : Prop :=
  match dget "food_id" d with
  | None => True
  | Some (VInt _) => True
  | Some v => exists e, py_int v = Raise e /\ caught_value_type e = true
  end.

(* ------------------------------------------------------------------------- *)
(** ** Further code of the same modules *)

(** [x == food_id] for an element [x] of a JSON list and an int. *)
Definition json_eq_int (z : Z) (v : json) : bool :=
  match v with
  | JInt z' => (z =? z')%Z
  | JBool b => (z =? if b then 1 else 0)%Z
  | JFloat (PFin q) => Qeq_bool q (inject_Z z)
  | _ => false
  end.

(** [CheckpointManager.is_completed]: [self.data.get("completed_ids", [])]
    raises AttributeError when [self.data] is not a dict; [food_id in x]
    looks through a list, is False on a dict (its keys are strings) and
    raises TypeError on a string or a scalar. *)
Definition is_completed (m : ckpt_mgr) (food_id : Z) : res bool :=
  match mdata m with
  | JObj fs =>
      match match jget "completed_ids" fs with Some c => c | None => JArr [] end with
      | JArr l => Ok (existsb (json_eq_int food_id) l)
      | JObj _ => Ok false
      | _ => Raise TypeError
      end
  | _ => Raise AttributeError
  end.

(** [CheckpointManager.get_scraped_data] *)
Definition get_scraped_data (m : ckpt_mgr) : res json :=
  match mdata m with
  | JObj fs => Ok (match jget "data" fs with Some d => d | None => JArr [] end)
  | _ => Raise AttributeError
  end.

(** [IncrementalWriter.add_data]: extend the buffer, then flush once it holds
    [batch_size] records or more. *)
Definition add_data (w : writer) (data : list dict) (co : csv_outcome)
    (xo : xlsx_io) : writer * option pyexc :=
  let w1 := with_pending w (pending w ++ data) in
  if (batch_size w <=? List.length (pending w1))%nat then flush w1 co xo
  else (w1, None).

(** [IncrementalWriter.finalize]: flush a non-empty buffer (its exception
    propagates), then, when the workbook exists, [_update_summary_sheet],
    whose exceptions are caught.  That step rewrites the workbook in place
    to add the "Summary" sheet; [summary_left] is [None] when the data sheet
    comes out of it unchanged (a successful save, or a failure before the
    file is written) and [Some rows] when a failing save leaves the data
    sheet as [rows]. *)
Definition finalize (w : writer) (co : csv_outcome) (xo : xlsx_io)
    (summary_left : option (list (list pyval))) : writer * option pyexc :=
  let (w1, r) := match pending w with
                 | [] => (w, None)
                 | _ => flush w co xo
                 end in
  match r with
  | Some e => (w1, Some e)
  | None =>
      if excel_exists w1 then
        match summary_left with
        | None => (w1, None)
        | Some rows => (with_xlsx w1 rows true, None)
        end
      else (w1, None)
  end.

(** The key of [analyze_skipped_items]: [f"{error_type} ({reason})"]. *)
Definition analysis_key (e : skip_entry) : string :=
  e_error_type e ++ " (" ++ e_reason e ++ ")".

(** A dict from strings to ints, as an association list. *)
Fixpoint cget (k : string) (d : list (string * Z)) : option Z :=
  match d with
  | [] => None
  | (k', n) :: r => if String.eqb k k' then Some n else cget k r
  end.

Fixpoint cset (k : string) (n : Z) (d : list (string * Z)) : list (string * Z) :=
  match d with
  | [] => [(k, n)]
  | (k', n') :: r =>
      if String.eqb k k' then (k', n) :: r else (k', n') :: cset k n r
  end.

(** [analyze_skipped_items] of scripts/retry_skipped.py, on the entries the
    ledger holds. *)
Definition analyze_skipped_items (skipped_items : list skip_entry)
  : list (string * Z) :=
  fold_left (fun counts item =>
               let key := analysis_key item in
               cset key (match cget key counts with Some n => n | None => 0 end + 1)%Z
                    counts)
            skipped_items [].

(** The id an event of the scrape loop is about. *)
Definition event_id (ev : event) : option Z :=
  match ev with
  | EAddData id | ELogSkipped id _ => Some id
  | _ => None
  end.

(** [if data:] on what [scrape_item] returned. *)
Definition has_records (r : scrape_res) : bool :=
  match r with Records (_ :: _) => true | _ => false end.

Definition demo_writer2 : writer := mk_writer [demo_row] [] true [] true 2.

(* ========================================================================= *)
(** * Properties *)

(* ------------------------------------------------------------------------- *)
(** ** Checkpoint store *)

Lemma insert_sorted_perm : forall x l, Permutation (insert_sorted x l) (x :: l).
Proof.
  intros x l; induction l as [|y r IH]; simpl; [auto|].
  destruct (x <=? y)%Z; [auto|].
  eapply perm_trans; [apply perm_skip, IH | apply perm_swap].
Qed.

Lemma sort_ints_perm : forall l, Permutation (sort_ints l) l.
Proof.
  induction l as [|x r IH]; simpl; [auto|].
  eapply perm_trans; [apply insert_sorted_perm | auto].
Qed.

Lemma load_checkpoint_data : forall b ids data now,
  load (mk_mgr (mk_fs (Some (CJson (checkpoint_data ids data now))) b)
               (checkpoint_data ids data now))
  = Ok (checkpoint_data ids data now,
        mk_mgr (mk_fs (Some (CJson (checkpoint_data ids data now))) b)
               (checkpoint_data ids data now)).
Proof. reflexivity. Qed.

Lemma save_true_inv : forall m ids data force now io m',
  save m ids data force now io = (m', true) ->
  exists b, m' = mk_mgr (mk_fs (Some (CJson (checkpoint_data ids data now))) b)
                        (checkpoint_data ids data now).
Proof.
  intros m ids data force now io m' H; unfold save in H.
  destruct (primary (fs m)) as [c|];
    [destruct c; destruct (copy_res io) as [|b]|];
    destruct (tmp_ok io), (replace_ok io); simpl in H;
    try discriminate H; injection H as <-; eauto.
Qed.

(** ** C1 *)

(** C1 (checkpoint round-trip): whenever [save(S, R)] returns True, the
    following [load()] returns (without raising) a dict whose
    [completed_ids] holds exactly the ids of [S] (as a set) and whose [data]
    is [R], in order. *)
Theorem checkpoint_roundtrip : forall m S R force now io m',
  save m S R force now io = (m', true) ->
  exists v m'', load m' = Ok (v, m'')
  /\ (exists ids, field "completed_ids" v = Some (JArr (map JInt ids))
                 /\ forall x, In x ids <-> In x S)
  /\ field "data" v = Some (JArr R).
Proof.
  intros m S R force now io m' H.
  destruct (save_true_inv _ _ _ _ _ _ _ H) as [b ->].
  rewrite load_checkpoint_data; eexists; eexists; split; [reflexivity|].
  simpl; split; [|reflexivity].
  exists (sort_ints S); split; [reflexivity|].
  intro x; split; apply Permutation_in;
    [apply sort_ints_perm | apply Permutation_sym, sort_ints_perm].
Qed.

Lemma checkpoint_roundtrip_witness :
  save demo_mgr [5; 3]%Z [JObj [("food_id", JInt 3)]] false "t" demo_io
    = (fst (save demo_mgr [5; 3]%Z [JObj [("food_id", JInt 3)]] false "t" demo_io), true)
  /\ exists v m'', load (fst (save demo_mgr [5; 3]%Z [JObj [("food_id", JInt 3)]]
                                 false "t" demo_io)) = Ok (v, m'')
     /\ field "data" v = Some (JArr [JObj [("food_id", JInt 3)]]).
Proof.
  split; [reflexivity|].
  destruct (checkpoint_roundtrip demo_mgr [5; 3]%Z [JObj [("food_id", JInt 3)]]
              false "t" demo_io _ eq_refl) as [v [m'' [Hl [_ Hd]]]].
  exists v, m''; split; assumption.
Defined.

(** ** C3 *)

Lemma backup_best_effort_counterexample : ~ backup_best_effort.
Proof.
  intro H.
  destruct (H demo_mgr [1%Z] [] false "t" (mk_io (CopyFails None) true true) None)
    as [Hs _]; try reflexivity; [discriminate | discriminate].
Qed.

(** C3 (amended): the backup copy runs inside the same [try] as the rest of
    [save]: when the primary file exists and copying it to [.bak] fails,
    [save] returns False, the primary file is left as it was and [self.data]
    is unchanged; the [.bak] is left as the failed copy left it (or as it
    was, when already [checkpoint_path.exists()] raised). *)
Theorem backup_failure_aborts_save : forall m S R force now io b,
  primary (fs m) <> None -> copy_res io = CopyFails b ->
  save m S R force now io
  = (mk_mgr (mk_fs (primary (fs m))
                   (match primary (fs m) with
                    | Some CStatFails => backup (fs m)
                    | _ => b
                    end)) (mdata m), false).
Proof.
  intros m S R force now io b Hp Hc; unfold save.
  destruct (primary (fs m)) as [c|]; [|congruence].
  rewrite Hc; destruct c; reflexivity.
Qed.

Lemma backup_failure_aborts_save_witness :
  save demo_mgr [1%Z] [] false "t" (mk_io (CopyFails None) true true)
  = (mk_mgr (mk_fs (Some (CJson zero_state)) None) (JObj []), false).
Proof.
  apply (backup_failure_aborts_save demo_mgr [1%Z] [] false "t"
           (mk_io (CopyFails None) true true) None); [discriminate | reflexivity].
Defined.

(** ** C4 *)

Lemma corrupt_fallback_counterexample : ~ corrupt_fallback_to_backup.
Proof.
  intro H.
  destruct (H (mk_mgr (mk_fs (Some CUndecodable) (Some (CJson demo_backup)))
                      (JObj []))
              CUndecodable demo_backup eq_refl I eq_refl eq_refl) as [m' Hl].
  discriminate Hl.
Qed.

(** C4 (amended): only a primary file that fails JSON decoding falls back to
    the [.bak]: [load] then returns the parsed [.bak] when it exists and reads
    as JSON, and the zero-value state otherwise.  A missing primary, one
    that cannot be opened (a directory, say) or decoded as UTF-8, or one
    holding JSON that is not an object with a sized [completed_ids], gives
    the zero-value state without consulting the [.bak]; a primary holding
    such an object is returned as is.  The existence checks of the primary
    and, during the fallback, of the [.bak] run outside any [try]: when
    [Path.exists()] raises, [load] raises, and in no other case. *)
Theorem load_fallback : forall m,
  (primary (fs m) = Some CNotJson ->
     load m = match backup (fs m) with
              | Some (CJson v) => Ok (v, mk_mgr (fs m) v)
              | Some CStatFails => Raise OSError
              | _ => Ok (zero_state, m)
              end)
  /\ (primary (fs m) = None \/ primary (fs m) = Some CUndecodable
      \/ primary (fs m) = Some CUnreadable \/ primary (fs m) = Some CDir ->
      load m = Ok (zero_state, m))
  /\ (forall v, primary (fs m) = Some (CJson v) -> loaded_ok v = false ->
        load m = Ok (zero_state, mk_mgr (fs m) v))
  /\ (forall v, primary (fs m) = Some (CJson v) -> loaded_ok v = true ->
        load m = Ok (v, mk_mgr (fs m) v))
  /\ (primary (fs m) = Some CStatFails -> load m = Raise OSError)
  /\ (forall e, load m = Raise e ->
        e = OSError /\ (primary (fs m) = Some CStatFails
                        \/ (primary (fs m) = Some CNotJson
                            /\ backup (fs m) = Some CStatFails))).
Proof.
  intros [[p b] d]; unfold load, try_backup_recovery; simpl.
  split; [|split; [|split; [|split; [|split]]]].
  - intros ->; destruct b as [[]|]; reflexivity.
  - intros [-> | [-> | [-> | ->]]]; reflexivity.
  - intros v -> Hv; rewrite Hv; reflexivity.
  - intros v -> Hv; rewrite Hv; reflexivity.
  - intros ->; reflexivity.
  - intros e; destruct p as [[v| | | | |]|]; try (intros H; discriminate H).
    + destruct (loaded_ok v); intros H; discriminate H.
    + destruct b as [[]|]; intros H; try discriminate H.
      injection H as <-; auto.
    + intros H; injection H as <-; auto.
Qed.

Lemma load_fallback_witness :
  load (mk_mgr (mk_fs (Some CNotJson) (Some (CJson demo_backup))) (JObj []))
    = Ok (demo_backup, mk_mgr (mk_fs (Some CNotJson) (Some (CJson demo_backup)))
                              demo_backup)
  /\ load (mk_mgr (mk_fs (Some CUndecodable) (Some (CJson demo_backup))) (JObj []))
     = Ok (zero_state, mk_mgr (mk_fs (Some CUndecodable) (Some (CJson demo_backup)))
                              (JObj []))
  /\ load (mk_mgr (mk_fs (Some CStatFails) None) (JObj [])) = Raise OSError.
Proof.
  split; [|split].
  - exact (proj1 (load_fallback
             (mk_mgr (mk_fs (Some CNotJson) (Some (CJson demo_backup))) (JObj [])))
             eq_refl).
  - apply (proj1 (proj2 (load_fallback
            (mk_mgr (mk_fs (Some CUndecodable) (Some (CJson demo_backup)))
                    (JObj []))))).
    right; left; reflexivity.
  - exact (proj1 (proj2 (proj2 (proj2 (proj2 (load_fallback
             (mk_mgr (mk_fs (Some CStatFails) None) (JObj [])))))))
             eq_refl).
Defined.

(* ------------------------------------------------------------------------- *)
(** ** Incremental writer *)

Lemma append_csv_pending : forall w data o,
  pending (fst (append_csv w data o)) = pending w.
Proof.
  intros w [|r rs] o; [reflexivity|]; destruct o; reflexivity.
Qed.

Lemma append_excel_pending : forall w data io,
  pending (fst (append_excel w data io)) = pending w.
Proof.
  intros w [|r rs] io; [reflexivity|]; simpl; destruct (wb_save io); reflexivity.
Qed.

(** ** C2 *)

(** C2 (buffer atomicity of flush): with a non-empty buffer, a raising CSV
    write, or a raising workbook write after a successful CSV write, makes
    [flush] raise and leaves the buffer exactly as it was; when both writes
    succeed, [flush] returns normally with an empty buffer. *)
Theorem flush_buffer_atomic : forall w co xo,
  pending w <> [] ->
  ((forall e rest, co = CsvFails e rest ->
      snd (flush w co xo) = Some e /\ pending (fst (flush w co xo)) = pending w)
   /\ (forall e, co = CsvOk -> wb_save xo = Some e ->
      snd (flush w co xo) = Some e /\ pending (fst (flush w co xo)) = pending w)
   /\ (co = CsvOk -> wb_save xo = None ->
      snd (flush w co xo) = None /\ pending (fst (flush w co xo)) = [])).
Proof.
  intros [p cf ce xr xe bs] co xo Hp; simpl in Hp.
  unfold flush; simpl.
  destruct p as [|r rs]; [congruence|].
  repeat split; intros; subst; simpl; try reflexivity;
    match goal with H : wb_save _ = _ |- _ => rewrite H end; reflexivity.
Qed.

Lemma flush_buffer_atomic_witness :
  snd (flush demo_writer CsvOk (mk_xio true (Some OSError))) = Some OSError
  /\ pending (fst (flush demo_writer CsvOk (mk_xio true (Some OSError))))
     = [demo_row].
Proof.
  exact (proj1 (proj2 (flush_buffer_atomic demo_writer CsvOk
                         (mk_xio true (Some OSError)) ltac:(discriminate)))
           OSError eq_refl eq_refl).
Defined.

(** ** C6 *)

Lemma str_mem_In : forall x l, str_mem x l = true <-> In x l.
Proof.
  intros x l; unfold str_mem; rewrite existsb_exists; split.
  - intros [y [Hy Heq]]; apply String.eqb_eq in Heq; subst; assumption.
  - intros H; exists x; split; [assumption | apply String.eqb_refl].
Qed.

Lemma dget_In : forall c (r : dict),
  (exists v, dget c r = Some v) <-> In c (map fst r).
Proof.
  intros c r; induction r as [|[k v] r IH]; simpl.
  - split; [intros [v H]; discriminate | intros []].
  - destruct (String.eqb c k) eqn:E.
    + apply String.eqb_eq in E; subst; split; [auto | eauto].
    + apply String.eqb_neq in E; rewrite IH; split; [auto|].
      intros [H|H]; [congruence | assumption].
Qed.

Lemma inner_fold_In : forall (r : dict) cols c,
  In c (fold_left (fun cols (kv : string * pyval) =>
                     if str_mem (fst kv) cols then cols else cols ++ [fst kv])
                  r cols)
  <-> In c cols \/ In c (map fst r).
Proof.
  induction r as [|[k v] r IH]; intros cols c; simpl.
  - tauto.
  - rewrite IH; destruct (str_mem k cols) eqn:E.
    + apply str_mem_In in E; split; [tauto|].
      intros [H|[H|H]]; auto; subst; auto.
    + rewrite in_app_iff; simpl; tauto.
Qed.

Lemma frame_columns_In : forall data c,
  In c (frame_columns data) <-> exists r, In r data /\ In c (map fst r).
Proof.
  intros data c; unfold frame_columns.
  assert (G : forall cols,
    In c (fold_left (fun cols (r : dict) =>
              fold_left (fun cols (kv : string * pyval) =>
                 if str_mem (fst kv) cols then cols else cols ++ [fst kv]) r cols)
            data cols)
    <-> In c cols \/ exists r, In r data /\ In c (map fst r)).
  { induction data as [|r0 rs IH]; intros cols; simpl.
    - split; [auto | intros [H|[r [[] _]]]; assumption].
    - rewrite IH, inner_fold_In; split.
      + intros [[H|H]|[r [Hr Hc]]]; eauto.
      + intros [H|[r [[<-|Hr] Hc]]]; eauto. }
  rewrite G; simpl; split; [intros [[]|H]; exact H | auto].
Qed.

Lemma str_mem_frame_columns : forall c data,
  str_mem c (frame_columns data) = key_in_batch c data.
Proof.
  intros c data.
  destruct (key_in_batch c data) eqn:E.
  - apply str_mem_In, frame_columns_In.
    unfold key_in_batch in E; apply existsb_exists in E as [r [Hr Hd]].
    exists r; split; [assumption|]; apply dget_In.
    destruct (dget c r); [eauto | discriminate].
  - destruct (str_mem c (frame_columns data)) eqn:F; [|reflexivity].
    apply str_mem_In, frame_columns_In in F as [r [Hr Hc]].
    apply dget_In in Hc as [v Hv].
    assert (key_in_batch c data = true) as T
      by (apply existsb_exists; exists r; rewrite Hv; auto).
    congruence.
Qed.

Lemma csv_backfill_zero_counterexample : ~ csv_backfill_zero.
Proof.
  intro H.
  destruct (H [demo_row] ltac:(discriminate) demo_row
              (hd [] (csv_rows [demo_row])) (or_introl eq_refl)) as [_ H2].
  specialize (H2 10%nat "food_id" eq_refl (or_intror eq_refl) eq_refl).
  discriminate H2.
Qed.

(** C6 (amended): a CSV append of a non-empty batch writes one row per
    record, each holding the eleven [COLUMNS] in their fixed order, after a
    header row when the file did not exist yet.  A column that no record of
    the batch carries is filled with 0.0 (calories, the [_g] columns,
    measurement_value), "" (food_name, measurement_unit) or None (food_id,
    an empty CSV cell). *)
Theorem csv_append_columns : forall w data,
  data <> [] ->
  append_csv w data CsvOk
  = (with_csv w ((if csv_exists w then csv_file w else [header_row])
                 ++ csv_rows data) true, None)
  /\ List.length (csv_rows data) = List.length data
  /\ (forall row, In row (csv_rows data) ->
        List.length row = List.length COLUMNS
        /\ forall i c, nth_error COLUMNS i = Some c -> key_in_batch c data = false ->
             nth_error row i = Some (csv_default c))
  /\ map csv_default COLUMNS
     = [VStr ""; VStr ""; VFloat (PFin 0); VFloat (PFin 0); VFloat (PFin 0);
        VFloat (PFin 0); VFloat (PFin 0); VFloat (PFin 0); VFloat (PFin 0);
        VFloat (PFin 0); VNone].
Proof.
  intros w data Hd; split; [|split; [|split; [|reflexivity]]].
  - destruct data as [|r rs]; [congruence|].
    unfold append_csv; destruct (csv_exists w); reflexivity.
  - unfold csv_rows; apply length_map.
  - intros row Hrow; unfold csv_rows in Hrow.
    apply in_map_iff in Hrow as [r [<- _]].
    split; [apply length_map|].
    intros i c Hi Hk.
    rewrite nth_error_map, Hi; simpl.
    rewrite str_mem_frame_columns, Hk; reflexivity.
Qed.

Lemma csv_append_columns_witness :
  snd (append_csv demo_writer [demo_row] CsvOk) = None
  /\ nth_error (hd [] (csv_rows [demo_row])) 10 = Some VNone
  /\ nth_error (hd [] (csv_rows [demo_row])) 2 = Some (VFloat (PFin 0)).
Proof.
  destruct (csv_append_columns demo_writer [demo_row] ltac:(discriminate))
    as [H1 [_ [H3 _]]].
  assert (Hr : In (hd [] (csv_rows [demo_row])) (csv_rows [demo_row]))
    by (left; reflexivity).
  destruct (H3 _ Hr) as [_ H].
  split; [rewrite H1; reflexivity|].
  split; [apply (H 10%nat "food_id") | apply (H 2%nat "calories")]; reflexivity.
Defined.

(* ------------------------------------------------------------------------- *)
(** ** Skip ledger *)

Lemma entries_for_nil : forall j l,
  ~ In j (map e_food_id l) -> entries_for j l = [].
Proof.
  intros j l; induction l as [|e r IH]; simpl; [reflexivity|].
  intros H; destruct (e_food_id e =? j)%Z eqn:E.
  - apply Z.eqb_eq in E; tauto.
  - apply IH; tauto.
Qed.

Lemma in_ids_entries : forall j l,
  In j (map e_food_id l) <-> entries_for j l <> [].
Proof.
  intros j l; induction l as [|e r IH]; simpl.
  - split; [intros [] | intros H; apply H; reflexivity].
  - destruct (e_food_id e =? j)%Z eqn:E.
    + apply Z.eqb_eq in E; split; [discriminate | auto].
    + apply Z.eqb_neq in E; rewrite <- IH; split; [intros [H|H]; congruence | auto].
Qed.

Lemma entries_for_app : forall j l1 l2,
  entries_for j (l1 ++ l2) = entries_for j l1 ++ entries_for j l2.
Proof. intros; unfold entries_for; apply filter_app. Qed.

(** The upsert inside [log_skipped]. *)
Lemma upsert_spec : forall l id entry,
  e_food_id entry = id -> NoDup (map e_food_id l) ->
  let its := match find_index id l with
             | Some i => replace_at i entry l
             | None => l ++ [entry]
             end in
  NoDup (map e_food_id its) /\ entries_for id its = [entry]
  /\ forall j, j <> id -> entries_for j its = entries_for j l.
Proof.
  intros l id entry Hid; subst id.
  induction l as [|e r IH]; intros Hnd its; subst its.
  - simpl; unfold entries_for; simpl; rewrite Z.eqb_refl; repeat split.
    + constructor; [intros []|constructor].
    + intros j Hj; destruct (e_food_id entry =? j)%Z eqn:E;
        [apply Z.eqb_eq in E; congruence | reflexivity].
  - simpl in Hnd; apply NoDup_cons_iff in Hnd as [Hnotin Hnd'].
    simpl; destruct (e_food_id e =? e_food_id entry)%Z eqn:E.
    + apply Z.eqb_eq in E; rewrite E in Hnotin.
      repeat split.
      * simpl; constructor; assumption.
      * unfold entries_for; simpl; rewrite Z.eqb_refl.
        fold (entries_for (e_food_id entry) r).
        rewrite entries_for_nil; [reflexivity | assumption].
      * intros j Hj; unfold entries_for; simpl.
        rewrite E; destruct (e_food_id entry =? j)%Z eqn:F;
          [apply Z.eqb_eq in F; congruence | reflexivity].
    + destruct (IH Hnd') as [H1 [H2 H3]].
      revert H1 H2 H3.
      destruct (find_index (e_food_id entry) r) as [i|]; simpl; intros H1 H2 H3.
      all: apply Z.eqb_neq in E; repeat split.
      all: try (simpl; constructor; [|assumption];
                rewrite in_ids_entries, H3 by assumption;
                rewrite <- in_ids_entries; assumption).
      all: try (unfold entries_for; simpl;
                destruct (e_food_id e =? e_food_id entry)%Z eqn:F;
                [apply Z.eqb_eq in F; congruence | exact H2]).
      all: intros j Hj; unfold entries_for; simpl.
      all: destruct (e_food_id e =? j)%Z; [f_equal|]; apply H3; assumption.
Qed.

Lemma make_entry_id : forall id err msg reason now,
  e_food_id (make_entry id err msg reason now) = id.
Proof.
  intros; unfold make_entry; destruct err; [reflexivity|].
  destruct (negb _); reflexivity.
Qed.

Lemma log_skipped_spec : forall lg id err msg reason now so,
  NoDup (map e_food_id (items lg)) ->
  let its := items (fst (log_skipped lg id err msg reason now so)) in
  NoDup (map e_food_id its)
  /\ entries_for id its = [make_entry id err msg reason now]
  /\ forall j, j <> id -> entries_for j its = entries_for j (items lg).
Proof.
  intros lg id err msg reason now so Hnd its.
  assert (E : its = match find_index id (items lg) with
                    | Some i => replace_at i (make_entry id err msg reason now) (items lg)
                    | None => items lg ++ [make_entry id err msg reason now]
                    end)
    by (subst its; unfold log_skipped, save_ledger; destruct so; reflexivity).
  rewrite E; apply upsert_spec; [apply make_entry_id | assumption].
Qed.

(** ** C7 *)

(** C7 (skip-ledger upsert): from a ledger with at most one entry per
    [food_id], every sequence of [log_skipped] calls keeps at most one entry
    per [food_id]; two calls for the same id leave exactly one entry for it,
    the one built by the second call. *)
Theorem skip_ledger_upsert : forall lg,
  NoDup (map e_food_id (items lg)) ->
  (forall calls, NoDup (map e_food_id (items (run_calls lg calls))))
  /\ (forall c1 c2, c_food_id c1 = c_food_id c2 ->
        entries_for (c_food_id c2) (items (run_calls lg [c1; c2]))
        = [call_entry c2]).
Proof.
  intros lg Hnd; split.
  - intros calls; revert lg Hnd; induction calls as [|c cs IH]; intros lg Hnd;
      [exact Hnd|].
    simpl; apply IH; apply log_skipped_spec; assumption.
  - intros c1 c2 Hid; unfold run_calls; simpl.
    apply log_skipped_spec, log_skipped_spec; assumption.
Qed.

Lemma skip_ledger_upsert_witness :
  entries_for 42 (items (run_calls demo_logger
                           [demo_call "no_data"; demo_call "exception"]))
  = [call_entry (demo_call "exception")].
Proof.
  apply (proj2 (skip_ledger_upsert demo_logger
                  ltac:(simpl; repeat constructor; simpl; tauto))
           (demo_call "no_data") (demo_call "exception") eq_refl).
Defined.

(* ------------------------------------------------------------------------- *)
(** ** Retry loop *)

Lemma NoDup_map_filter : forall (A B : Type) (f : A -> B) p l,
  NoDup (map f l) -> NoDup (map f (filter p l)).
Proof.
  intros A B f p l; induction l as [|x r IH]; simpl; [auto|].
  intros H; apply NoDup_cons_iff in H as [H1 H2].
  destruct (p x); simpl; [|auto].
  constructor; [|auto].
  intro Hin; apply H1.
  apply in_map_iff in Hin as [y [Hy Hin]]; apply filter_In in Hin as [Hin _].
  rewrite <- Hy; apply in_map; assumption.
Qed.

Lemma remove_skipped_spec : forall lg id,
  NoDup (map e_food_id (items lg)) ->
  match remove_skipped lg id None with
  | (lg', _, r) =>
      r = None /\ NoDup (map e_food_id (items lg'))
      /\ entries_for id (items lg') = []
      /\ forall j, j <> id -> entries_for j (items lg') = entries_for j (items lg)
  end.
Proof.
  intros lg id Hnd.
  assert (Hf : forall j, entries_for j
                 (filter (fun e => negb (e_food_id e =? id)%Z) (items lg))
               = if (j =? id)%Z then [] else entries_for j (items lg)).
  { intro j; unfold entries_for; clear Hnd.
    induction (items lg) as [|e r IH]; simpl; [destruct (j =? id)%Z; reflexivity|].
    destruct (e_food_id e =? id)%Z eqn:F; simpl.
    - apply Z.eqb_eq in F; rewrite IH.
      destruct (j =? id)%Z eqn:E; [reflexivity|].
      apply Z.eqb_neq in E; destruct (e_food_id e =? j)%Z eqn:G;
        [apply Z.eqb_eq in G; congruence | reflexivity].
    - rewrite IH; destruct (j =? id)%Z eqn:E.
      + apply Z.eqb_eq in E; apply Z.eqb_neq in F; subst.
        destruct (e_food_id e =? id)%Z eqn:G;
          [apply Z.eqb_eq in G; congruence | reflexivity].
      + destruct (e_food_id e =? j)%Z; reflexivity. }
  unfold remove_skipped.
  destruct (_ <? _)%nat; simpl;
    (repeat split;
     [apply NoDup_map_filter; assumption
     | rewrite Hf, Z.eqb_refl; reflexivity
     | intros j Hj; rewrite Hf; apply Z.eqb_neq in Hj; rewrite Hj; reflexivity]).
Qed.

Lemma retry_one_spec : forall env lg id,
  r_ledger_save env = None -> NoDup (map e_food_id (items lg)) ->
  let '(lg', go) := retry_one env lg id in
  go = match r_scrape env id with ScrapeInterrupted => false | _ => true end
  /\ NoDup (map e_food_id (items lg'))
  /\ entries_for id (items lg') = retry_effect env id (entries_for id (items lg))
  /\ forall j, j <> id -> entries_for j (items lg') = entries_for j (items lg).
Proof.
  intros env lg id Hs Hnd.
  unfold retry_one, retry_effect, retry_failed_path.
  assert (Hlog : forall l e, NoDup (map e_food_id (items l)) ->
    let '(lg1, r) := log_skipped l id (Some e) None (Some "retry_failed")
                       (r_now env) (r_ledger_save env) in
    r = None /\ NoDup (map e_food_id (items lg1))
    /\ entries_for id (items lg1)
       = [make_entry id (Some e) None (Some "retry_failed") (r_now env)]
    /\ forall j, j <> id -> entries_for j (items lg1) = entries_for j (items l)).
  { intros l e Hl.
    pose proof (log_skipped_spec l id (Some e) None (Some "retry_failed")
                  (r_now env) (r_ledger_save env) Hl) as [A [B C]].
    destruct (log_skipped l id _ _ _ _ _) as [lg1 r] eqn:E.
    simpl in A, B, C.
    split; [|auto].
    unfold log_skipped, save_ledger in E; rewrite Hs in E.
    injection E as _ <-; reflexivity. }
  destruct (r_scrape env id) as [[|row rows] | e |].
  - repeat split; auto.
  - destruct (r_add env id) as [e|].
    + specialize (Hlog lg e Hnd).
      destruct (log_skipped lg id _ _ _ _ _) as [lg1 r]; destruct Hlog as [-> H].
      split; [reflexivity | exact H].
    + rewrite Hs; pose proof (remove_skipped_spec lg id Hnd) as R.
      rewrite <- Hs in R |- *.
      destruct (remove_skipped lg id (r_ledger_save env)) as [[lg1 b] r].
      rewrite Hs in R; destruct R as [-> R]; split; [reflexivity | exact R].
  - specialize (Hlog lg e Hnd).
    destruct (log_skipped lg id _ _ _ _ _) as [lg1 r]; destruct Hlog as [-> H].
    split; [reflexivity | exact H].
  - repeat split; auto.
Qed.

Lemma retry_loop_frame : forall env id ids lg,
  r_ledger_save env = None -> NoDup (map e_food_id (items lg)) -> ~ In id ids ->
  NoDup (map e_food_id (items (retry_loop env lg ids)))
  /\ entries_for id (items (retry_loop env lg ids)) = entries_for id (items lg).
Proof.
  intros env id ids; induction ids as [|j js IH]; intros lg Hs Hnd Hin;
    [simpl; auto|].
  simpl; pose proof (retry_one_spec env lg j Hs Hnd) as R.
  destruct (retry_one env lg j) as [lg1 go]; destruct R as [_ [R1 [_ R3]]].
  assert (Hj : id <> j) by (intro; apply Hin; left; congruence).
  destruct go.
  - destruct (IH lg1 Hs R1 ltac:(intro; apply Hin; right; assumption)) as [A B].
    rewrite B, R3 by assumption; auto.
  - rewrite R3 by assumption; auto.
Qed.

Lemma retry_ledger_counterexample : ~ retry_ledger_claim.
Proof.
  intro H.
  specialize (H demo_retry_env demo_logger 42%Z eq_refl
                ltac:(simpl; repeat constructor; simpl; tauto)).
  simpl in H; destruct H as [e [He Hr]].
  injection He as <-; discriminate Hr.
Qed.

(** ** C9 *)

(** C9 (amended): when the ledger file writes succeed, with distinct ids and
    a ledger holding at most one entry per id, an id retried before any
    interruption ends with: no entry when its scrape yields records and
    [add_data] does not raise; exactly one entry with reason "retry_failed"
    when the scrape raises or [add_data] raises; and its previous entries
    unchanged when the scrape yields no records (the entry keeps its old
    reason) or is interrupted. *)
Theorem retry_ledger_handling : forall env lg pre id post,
  r_ledger_save env = None -> NoDup (map e_food_id (items lg)) ->
  NoDup (pre ++ id :: post) ->
  (forall j, In j pre -> r_scrape env j <> ScrapeInterrupted) ->
  entries_for id (items (retry_loop env lg (pre ++ id :: post)))
  = retry_effect env id (entries_for id (items lg)).
Proof.
  intros env lg pre; revert lg; induction pre as [|j pre IH];
    intros lg id post Hs Hnd Hids Hpre; simpl.
  - pose proof (retry_one_spec env lg id Hs Hnd) as R.
    destruct (retry_one env lg id) as [lg1 go]; destruct R as [_ [R1 [R2 _]]].
    apply NoDup_cons_iff in Hids as [Hnin _].
    destruct go; [|exact R2].
    rewrite (proj2 (retry_loop_frame env id post lg1 Hs R1 Hnin)); exact R2.
  - pose proof (retry_one_spec env lg j Hs Hnd) as R.
    destruct (retry_one env lg j) as [lg1 go]; destruct R as [Rg [R1 [_ R3]]].
    apply NoDup_cons_iff in Hids as [Hnin Hids].
    assert (Hj : id <> j) by (intro; subst; apply Hnin, in_elt).
    assert (go = true) as ->.
    { rewrite Rg; specialize (Hpre j (or_introl eq_refl)).
      destruct (r_scrape env j); congruence. }
    rewrite IH by (auto || (intros k Hk; apply Hpre; right; assumption)).
    rewrite R3 by assumption; reflexivity.
Qed.

Lemma retry_ledger_handling_witness :
  entries_for 42 (items (retry_loop demo_retry_env2 demo_ledger2 ([41%Z] ++ 42%Z :: [])))
  = [make_entry 42 (Some (mk_exn "TimeoutError" "timeout" "tb")) None
                (Some "retry_failed") "t1"].
Proof.
  rewrite (retry_ledger_handling demo_retry_env2 demo_ledger2 [41%Z] 42%Z []).
  - reflexivity.
  - reflexivity.
  - simpl; repeat constructor; simpl; lia.
  - simpl; repeat constructor; simpl; lia.
  - intros j [<-|[]]; discriminate.
Defined.

(* ------------------------------------------------------------------------- *)
(** ** Scrape loop exits *)



(** The events one iteration for [id] adds. *)
Definition step_event (id : Z) (ev : event) : Prop :=
  ev = EAddData id \/ (exists r, ev = ELogSkipped id r) \/ ev = ECheckpointSave false.

Ltac split_cases :=
  repeat match goal with
         | |- context [match ?x with Some _ => _ | None => _ end] => destruct x
         | |- context [if ?c then _ else _] => destruct c
         end.

Ltac unfold_step :=
  unfold scrape_one, item_body, periodic_checkpoint, raise_in_try, item_handler,
    emit.

Lemma scrape_one_trace : forall env st id ev,
  In ev (trace (fst (scrape_one env st id))) -> In ev (trace st) \/ step_event id ev.
Proof.
  intros env st id ev; unfold_step; unfold step_event.
  destruct (s_print env PProgress id); [simpl; auto|].
  destruct (s_scrape env id) as [[|r rs]|e|]; split_cases; simpl; intros H;
    repeat (rewrite in_app_iff in H; simpl in H);
    intuition (subst; eauto).
Qed.

Lemma scrape_one_keeps : forall env st id ev,
  In ev (trace st) -> In ev (trace (fst (scrape_one env st id))).
Proof.
  intros env st id ev H; unfold_step.
  destruct (s_print env PProgress id); [exact H|].
  destruct (s_scrape env id) as [[|r rs]|e|]; split_cases; simpl;
    repeat rewrite in_app_iff; auto.
Qed.

Lemma scrape_loop_trace : forall env ids st ev,
  In ev (trace (fst (scrape_loop env st ids))) ->
  In ev (trace st) \/ exists id, In id ids /\ step_event id ev.
Proof.
  intros env ids; induction ids as [|id rest IH]; simpl; intros st ev H; [auto|].
  pose proof (scrape_one_trace env st id ev) as T.
  destruct (scrape_one env st id) as [st1 go]; simpl in T.
  destruct go.
  - destruct (IH st1 ev H) as [H1|[j [Hj E]]].
    + destruct (T H1) as [H2|H2]; [auto|]; right; exists id; auto.
    + right; exists j; auto.
  - destruct (T H) as [H2|H2]; [auto|]; right; exists id; auto.
Qed.

Lemma scrape_loop_keeps : forall env ids st ev,
  In ev (trace st) -> In ev (trace (fst (scrape_loop env st ids))).
Proof.
  intros env ids; induction ids as [|id rest IH]; simpl; intros st ev H; [exact H|].
  pose proof (scrape_one_keeps env st id ev H) as K.
  destruct (scrape_one env st id) as [st1 go]; simpl in K.
  destruct go; [apply IH|]; exact K.
Qed.

(** ** C5 *)



(* ------------------------------------------------------------------------- *)
(** ** Cleaned and validated rows *)

Lemma dget_dset : forall k k' v d,
  dget k (dset k' v d) = if String.eqb k k' then Some v else dget k d.
Proof.
  intros k k' v d; induction d as [|[k0 v0] d IH]; simpl.
  - reflexivity.
  - destruct (String.eqb k' k0) eqn:E1; simpl.
    + apply String.eqb_eq in E1; subst k0.
      destruct (String.eqb k k'); reflexivity.
    + rewrite IH; destruct (String.eqb k k0) eqn:E2, (String.eqb k k') eqn:E3;
        try reflexivity.
      apply String.eqb_eq in E2, E3; subst; rewrite String.eqb_refl in E1;
        discriminate.
Qed.

Lemma clean_numeric_field_other : forall d f d' g,
  clean_numeric_field d f = Ok d' -> g <> f -> dget g d' = dget g d.
Proof.
  intros d f d' g H Hne; unfold clean_numeric_field in H.
  apply String.eqb_neq in Hne.
  destruct (dget f d) as [value|]; [|injection H as <-; reflexivity].
  destruct (is_none value || is_empty_str value).
  - injection H as <-; rewrite dget_dset, Hne; reflexivity.
  - destruct (match value with
              | VStr s => _ | _ => _ end) as [v|e].
    + injection H as <-; rewrite dget_dset, Hne; reflexivity.
    + destruct (caught_value_type e); [|discriminate].
      injection H as <-; rewrite dget_dset, Hne; reflexivity.
Qed.

Lemma clean_numeric_field_shape : forall d f d',
  clean_numeric_field d f = Ok d' -> numeric_shape f d'.
Proof.
  intros d f d' H; unfold clean_numeric_field in H; unfold numeric_shape.
  destruct (dget f d) as [value|] eqn:Ef.
  2:{ injection H as <-; rewrite Ef; exact I. }
  destruct (is_none value || is_empty_str value).
  - injection H as <-; rewrite dget_dset, String.eqb_refl; exact I.
  - destruct value as [| | | |s|]; cbv beta iota in H;
      [| | | | destruct (String.eqb (keep_numeric_chars s) "");
               [|destruct (float_of_string (keep_numeric_chars s))] |];
      try destruct (py_float _); try destruct (caught_value_type _);
      try discriminate; injection H as <-;
      rewrite dget_dset, String.eqb_refl; exact I.
Qed.

Lemma clean_numeric_field_keeps : forall d f d' g,
  clean_numeric_field d f = Ok d' -> numeric_shape g d -> numeric_shape g d'.
Proof.
  intros d f d' g H Hg.
  destruct (String.eqb g f) eqn:E.
  - apply String.eqb_eq in E; subst g; exact (clean_numeric_field_shape d f d' H).
  - apply String.eqb_neq in E; unfold numeric_shape in *.
    rewrite (clean_numeric_field_other d f d' g H E); exact Hg.
Qed.

Lemma clean_numeric_fields_keeps : forall fields d d' g,
  clean_numeric_fields d fields = Ok d' -> numeric_shape g d -> numeric_shape g d'.
Proof.
  induction fields as [|f fs IH]; simpl; intros d d' g H Hg.
  - injection H as <-; exact Hg.
  - destruct (clean_numeric_field d f) as [d1|] eqn:E; [|discriminate].
    exact (IH d1 d' g H (clean_numeric_field_keeps d f d1 g E Hg)).
Qed.

Lemma clean_numeric_fields_shape : forall fields d d' f,
  clean_numeric_fields d fields = Ok d' -> In f fields -> numeric_shape f d'.
Proof.
  induction fields as [|g fs IH]; simpl; intros d d' f H Hin; [contradiction|].
  destruct (clean_numeric_field d g) as [d1|] eqn:E; [|discriminate].
  destruct Hin as [<-|Hin].
  - exact (clean_numeric_fields_keeps fs d1 d' g H (clean_numeric_field_shape d g d1 E)).
  - exact (IH d1 d' f H Hin).
Qed.

Lemma clean_data_shape : forall float_str row r f,
  clean_data float_str row = Ok r -> In f NUMERIC_FIELDS -> numeric_shape f r.
Proof.
  intros float_str row r f H Hin; unfold clean_data in H.
  destruct (clean_numeric_fields _ NUMERIC_FIELDS) as [c|] eqn:E; [|discriminate].
  pose proof (clean_numeric_fields_shape _ _ _ f E Hin) as S.
  assert (Hne : String.eqb f "food_id" = false)
    by (simpl in Hin; intuition (subst; reflexivity)).
  destruct (dget "food_id" c) as [v|]; [|injection H as <-; exact S].
  destruct (py_int v) as [z|e].
  - injection H as <-; unfold numeric_shape; rewrite dget_dset, Hne; exact S.
  - destruct (caught_value_type e); [injection H as <-; exact S | discriminate].
Qed.

Lemma check_numerics_nil : forall row fields f,
  check_numerics row fields = Ok [] -> In f fields -> check_numeric row f = Ok [].
Proof.
  intros row fields; induction fields as [|g fs IH]; simpl; intros f H Hin;
    [contradiction|].
  destruct (check_numeric row g) as [es|] eqn:E; [|discriminate].
  destruct (check_numerics row fs) as [es'|] eqn:E'; [|discriminate].
  injection H as H; apply app_eq_nil in H as [-> ->].
  destruct Hin as [<-|Hin]; [exact E | exact (IH f eq_refl Hin)].
Qed.

Lemma validate_row_nonneg : forall r f x,
  validate_row r = Ok true -> In f NUMERIC_FIELDS ->
  dget f r = Some (VFloat x) -> f <> "measurement_value" -> flt_lt0 x = false.
Proof.
  intros r f x H Hin Hf Hmv; unfold validate_row, validation_errors in H.
  destruct (check_numerics r NUMERIC_FIELDS) as [num|] eqn:E; [|discriminate].
  destruct (match dget "food_id" r with
            | Some v => _ | None => _ end) as [fe|]; [|discriminate].
  destruct (flat_map _ REQUIRED_FIELDS ++ num ++ fe) eqn:Eall; [|discriminate].
  apply app_eq_nil in Eall as [_ Eall]; apply app_eq_nil in Eall as [-> _].
  pose proof (check_numerics_nil r _ f E Hin) as C.
  unfold check_numeric in C; rewrite Hf in C; simpl in C.
  apply String.eqb_neq in Hmv; rewrite Hmv in C; simpl in C.
  destruct (flt_lt0 x); [discriminate | reflexivity].
Qed.

Lemma process_batch_In : forall float_str rows out r,
  process_batch float_str rows = Ok out -> In r out ->
  exists row, In row rows /\ clean_data float_str row = Ok r
              /\ validate_row r = Ok true.
Proof.
  intros float_str rows; induction rows as [|row rest IH]; simpl;
    intros out r H Hin.
  - injection H as <-; contradiction.
  - destruct (clean_data float_str row) as [c|] eqn:Ec; [|discriminate].
    destruct (validate_row c) as [ok|] eqn:Ev; [|discriminate].
    destruct (process_batch float_str rest) as [out'|]; [|discriminate].
    injection H as <-.
    destruct ok; [destruct Hin as [<-|Hin]|].
    + exists row; auto.
    + destruct (IH out' r eq_refl Hin) as [row' [? ?]]; exists row'; auto.
    + destruct (IH out' r eq_refl Hin) as [row' [? ?]]; exists row'; auto.
Qed.

Lemma numeric_fields_counterexample : ~ numeric_fields_finite_nonneg.
Proof.
  intro H.
  destruct (H demo_float_str [demo_raw_row (VStr "-5")] _ eq_refl
              _ "measurement_value" _ (or_introl eq_refl)
              ltac:(simpl; tauto) eq_refl) as [E|[q [E Hq]]];
    [discriminate E|].
  injection E as <-; discriminate Hq.
Qed.

(** ** C8 *)

(** C8 (amended): in every row [process_batch] outputs, each numeric field
    that is present (calories, fat_g, protein_g, carbs_g, fiber_g, sugar_g,
    salt_g, measurement_value) is None or a float, never a string or any
    other value; the seven nutrient fields are never negative, while
    measurement_value may be negative, and neither an infinity nor NaN is
    rejected. *)
Theorem process_batch_numeric_fields : forall float_str rows out,
  process_batch float_str rows = Ok out ->
  forall r f v, In r out -> In f NUMERIC_FIELDS -> dget f r = Some v ->
    v = VNone
    \/ exists x, v = VFloat x
                 /\ (f <> "measurement_value" -> flt_lt0 x = false).
Proof.
  intros float_str rows out H r f v Hr Hf Hv.
  destruct (process_batch_In float_str rows out r H Hr) as [row [_ [Hc Hok]]].
  pose proof (clean_data_shape float_str row r f Hc Hf) as S.
  unfold numeric_shape in S; rewrite Hv in S.
  destruct v as [| | |x| |]; try contradiction; [left; reflexivity|].
  right; exists x; split; [reflexivity|].
  intros Hmv; exact (validate_row_nonneg r f x Hok Hf Hv Hmv).
Qed.

Lemma process_batch_numeric_fields_witness :
  exists x, dget "calories"
              (hd [] (match process_batch demo_float_str
                              [demo_raw_row (VStr "2.5")] with
                      | Ok out => out | Raise _ => [] end))
            = Some (VFloat x) /\ flt_lt0 x = false.
Proof.
  destruct (process_batch_numeric_fields demo_float_str
              [demo_raw_row (VStr "2.5")] _ eq_refl
              _ "calories" _ (or_introl eq_refl) (or_introl eq_refl) eq_refl)
    as [E|[x [E Hx]]]; [discriminate E|].
  exists x; split; [exact (f_equal Some E) | apply Hx; discriminate].
Defined.

(* ------------------------------------------------------------------------- *)
(** ** Normalising twice *)

Lemma drop_sp_start : forall l,
  drop_sp l = [] \/ exists c r, drop_sp l = c :: r /\ is_space c = false.
Proof.
  induction l as [|a l IH]; simpl; [left; reflexivity|].
  destruct (is_space a) eqn:E; [exact IH | right; exists a, l; auto].
Qed.

Lemma drop_sp_fix : forall l,
  (l = [] \/ exists c r, l = c :: r /\ is_space c = false) -> drop_sp l = l.
Proof.
  intros l [->|[c [r [-> E]]]]; simpl; [reflexivity | rewrite E; reflexivity].
Qed.

Lemma drop_sp_suffix : forall l, exists p, l = p ++ drop_sp l.
Proof.
  induction l as [|a l [p IH]]; simpl; [exists []; reflexivity|].
  destruct (is_space a).
  - exists (a :: p); simpl; rewrite <- IH; reflexivity.
  - exists []; reflexivity.
Qed.

Lemma strip_list_idem : forall l, strip_list (strip_list l) = strip_list l.
Proof.
  intros l; unfold strip_list.
  remember (drop_sp l) as m eqn:Hm0.
  remember (drop_sp (rev m)) as n eqn:Hn0.
  assert (Hn : drop_sp n = n) by (subst n; apply drop_sp_fix, drop_sp_start).
  assert (Hm : drop_sp (rev n) = rev n).
  { destruct (drop_sp_suffix (rev m)) as [p Hp]; rewrite <- Hn0 in Hp.
    assert (Em : m = rev n ++ rev p)
      by (rewrite <- rev_app_distr, <- Hp, rev_involutive; reflexivity).
    apply drop_sp_fix.
    destruct (rev n) as [|c r]; [left; reflexivity | right].
    exists c, r; split; [reflexivity|].
    destruct (drop_sp_start l) as [Hl|[c' [r' [Hl Hc]]]]; rewrite <- Hm0 in Hl;
      rewrite Hl in Em; simpl in Em; [discriminate Em|].
    injection Em as -> _; exact Hc. }
  rewrite Hm, rev_involutive, Hn; reflexivity.
Qed.

Lemma strip_idem : forall s, strip (strip s) = strip s.
Proof.
  intros s; unfold strip.
  rewrite list_ascii_of_string_of_list_ascii, strip_list_idem; reflexivity.
Qed.

Lemma dset_same : forall k v d, dget k d = Some v -> dset k v d = d.
Proof.
  intros k v d; induction d as [|[k0 v0] d IH]; simpl; [discriminate|].
  intros H.
  destruct (String.eqb k k0) eqn:E.
  - injection H as ->; apply String.eqb_eq in E; subst; reflexivity.
  - rewrite (IH H); reflexivity.
Qed.

Lemma clean_text_field_shape : forall float_str d f,
  text_shape f (clean_text_field float_str d f).
Proof.
  intros float_str d f; unfold clean_text_field.
  destruct (dget f d) as [v|] eqn:E; [destruct (truthy v) eqn:T|];
    unfold text_shape.
  - rewrite dget_dset, String.eqb_refl; right; eexists; split;
      [reflexivity | apply strip_idem].
  - rewrite E; left; exact T.
  - rewrite E; exact I.
Qed.

Lemma clean_text_field_other : forall float_str d f g,
  g <> f -> dget g (clean_text_field float_str d f) = dget g d.
Proof.
  intros float_str d f g Hne; apply String.eqb_neq in Hne; unfold clean_text_field.
  destruct (dget f d) as [v|]; [destruct (truthy v)|]; rewrite ?dget_dset, ?Hne;
    reflexivity.
Qed.

Lemma clean_text_field_stable : forall float_str d f,
  text_shape f d -> clean_text_field float_str d f = d.
Proof.
  intros float_str d f H; unfold text_shape in H; unfold clean_text_field.
  destruct (dget f d) as [v|] eqn:E; [|reflexivity].
  destruct H as [T|[s [-> Hs]]]; [rewrite T; reflexivity|].
  destruct (truthy (VStr s)); [|reflexivity].
  simpl; rewrite Hs; apply dset_same; exact E.
Qed.

Lemma clean_numeric_field_stable : forall d f,
  numeric_shape f d -> clean_numeric_field d f = Ok d.
Proof.
  intros d f H; unfold numeric_shape in H; unfold clean_numeric_field.
  destruct (dget f d) as [v|] eqn:E; [|reflexivity].
  destruct v as [| | |x| |]; try contradiction; simpl;
    rewrite (dset_same f _ d E); reflexivity.
Qed.

Lemma clean_numeric_fields_stable : forall fields d,
  (forall f, In f fields -> numeric_shape f d) -> clean_numeric_fields d fields = Ok d.
Proof.
  induction fields as [|f fs IH]; simpl; intros d H; [reflexivity|].
  rewrite clean_numeric_field_stable by auto; auto.
Qed.

Lemma clean_numeric_fields_other : forall fields d d' g,
  clean_numeric_fields d fields = Ok d' -> ~ In g fields -> dget g d' = dget g d.
Proof.
  induction fields as [|f fs IH]; simpl; intros d d' g H Hg.
  - injection H as <-; reflexivity.
  - destruct (clean_numeric_field d f) as [d1|] eqn:E; [|discriminate].
    rewrite (IH d1 d' g H ltac:(tauto)).
    apply (clean_numeric_field_other d f d1 g E); intros ->; tauto.
Qed.

Lemma clean_data_text_food_id : forall float_str row r,
  clean_data float_str row = Ok r ->
  (forall f, In f text_fields -> text_shape f r) /\ food_id_shape r.
Proof.
  intros float_str row r H; unfold clean_data in H.
  set (t := fold_left (clean_text_field float_str) text_fields row) in H.
  assert (Ht : forall f, In f text_fields -> text_shape f t).
  { intros f Hf; subst t; simpl.
    destruct Hf as [<-|[<-|[]]].
    - unfold text_shape; rewrite clean_text_field_other by discriminate.
      apply clean_text_field_shape.
    - apply clean_text_field_shape. }
  destruct (clean_numeric_fields t NUMERIC_FIELDS) as [c|] eqn:E; [|discriminate].
  assert (Hc : forall f, In f text_fields -> text_shape f c).
  { intros f Hf; unfold text_shape;
      rewrite (clean_numeric_fields_other _ t c f E)
        by (simpl in Hf |- *; intuition (subst; discriminate)).
    apply Ht; exact Hf. }
  assert (Htf : forall f v, In f text_fields ->
                text_shape f (dset "food_id" v c)).
  { intros f v Hf; unfold text_shape; rewrite dget_dset.
    replace (String.eqb f "food_id") with false
      by (simpl in Hf; intuition (subst; reflexivity)).
    apply Hc; exact Hf. }
  destruct (dget "food_id" c) as [v|] eqn:Ef.
  - destruct (py_int v) as [z|e] eqn:Ei.
    + injection H as <-; split; [auto|].
      unfold food_id_shape; rewrite dget_dset; exact I.
    + destruct (caught_value_type e) eqn:Ec; [|discriminate].
      injection H as <-; split; [exact Hc|].
      unfold food_id_shape; rewrite Ef.
      destruct v; try exact I; exists e; auto.
  - injection H as <-; split; [exact Hc|].
    unfold food_id_shape; rewrite Ef; exact I.
Qed.

Lemma clean_data_stable : forall float_str row r,
  clean_data float_str row = Ok r -> clean_data float_str r = Ok r.
Proof.
  intros float_str row r H.
  destruct (clean_data_text_food_id float_str row r H) as [Ht Hf].
  unfold clean_data, text_fields; cbn [fold_left].
  rewrite (clean_text_field_stable float_str r "food_name")
    by (apply Ht; simpl; auto).
  rewrite (clean_text_field_stable float_str r "measurement_unit")
    by (apply Ht; simpl; auto).
  rewrite clean_numeric_fields_stable
    by (intros f Hin; exact (clean_data_shape float_str row r f H Hin)).
  unfold food_id_shape in Hf.
  destruct (dget "food_id" r) as [v|] eqn:E; [|reflexivity].
  destruct v as [| | z | | |].
  3: simpl; rewrite (dset_same _ _ r E); reflexivity.
  all: destruct Hf as [e [Hi Hc]]; rewrite Hi, Hc; reflexivity.
Qed.

(** ** C10 *)

(** C10: [clean_data] is idempotent: applying it to its own result gives
    that result again, for every row; a row on which [clean_data] raises
    raises the same exception when the call is nested. *)
Theorem clean_data_idempotent : forall float_str row,
  match clean_data float_str row with
  | Ok r => clean_data float_str r
  | Raise e => Raise e
  end = clean_data float_str row.
Proof.
  intros float_str row.
  destruct (clean_data float_str row) as [r|e] eqn:H; [|reflexivity].
  exact (clean_data_stable float_str row r H).
Qed.

(* ========================================================================= *)
(** * Further properties of the code *)

(* ------------------------------------------------------------------------- *)
(** ** [CheckpointManager] *)

Lemma existsb_json_eq_int : forall x l,
  existsb (json_eq_int x) (map JInt l) = existsb (Z.eqb x) l.
Proof.
  intros x l; induction l as [|y r IH]; simpl; [reflexivity|].
  rewrite IH; reflexivity.
Qed.

Lemma existsb_Zeqb_In : forall x l, existsb (Z.eqb x) l = true <-> In x l.
Proof.
  intros x l; rewrite existsb_exists; split.
  - intros [y [Hy E]]; apply Z.eqb_eq in E; subst; exact Hy.
  - intros H; exists x; split; [exact H | apply Z.eqb_refl].
Qed.

Lemma insert_sorted_sorted : forall x l,
  Sorted Z.le l -> Sorted Z.le (insert_sorted x l).
Proof.
  intros x l; induction l as [|y r IH]; simpl; intros H.
  - constructor; constructor.
  - destruct (x <=? y)%Z eqn:E.
    + constructor; [exact H | constructor; apply Z.leb_le; exact E].
    + apply Z.leb_gt in E.
      apply Sorted_inv in H as [Hr Hy].
      constructor; [apply IH; exact Hr|].
      destruct r as [|z r']; simpl; [constructor; lia|].
      destruct (x <=? z)%Z; constructor; [lia|].
      inversion Hy; assumption.
Qed.

Lemma sort_ints_sorted : forall l, Sorted Z.le (sort_ints l).
Proof.
  induction l as [|x r IH]; simpl; [constructor | apply insert_sorted_sorted, IH].
Qed.

(** After a successful [save(S, R)], [is_completed(x)] is True exactly for
    the ids of [S], and [get_scraped_data()] returns [R]. *)
Theorem save_then_queries : forall m S R force now io m',
  save m S R force now io = (m', true) ->
  (forall x, is_completed m' x = Ok true <-> In x S)
  /\ get_scraped_data m' = Ok (JArr R).
Proof.
  intros m S R force now io m' H.
  destruct (save_true_inv m S R force now io m' H) as [b ->].
  split; [|reflexivity].
  intros x; unfold is_completed; simpl.
  rewrite existsb_json_eq_int; split.
  - intros E; injection E as E; apply existsb_Zeqb_In in E.
    exact (Permutation_in _ (sort_ints_perm S) E).
  - intros Hx; f_equal; apply existsb_Zeqb_In.
    exact (Permutation_in _ (Permutation_sym (sort_ints_perm S)) Hx).
Qed.

Lemma save_then_queries_witness :
  is_completed (fst (save demo_mgr [5; 3]%Z [] false "t" demo_io)) 3 = Ok true.
Proof.
  apply (proj1 (save_then_queries demo_mgr [5; 3]%Z [] false "t" demo_io _
                  eq_refl) 3%Z).
  simpl; auto.
Defined.

(** A successful [save] writes [completed_ids] in ascending order, as a
    permutation of the ids given, and [total_scraped] as [len(data)]. *)
Theorem save_sorted_ids : forall m S R force now io m',
  save m S R force now io = (m', true) ->
  exists ids, field "completed_ids" (mdata m') = Some (JArr (map JInt ids))
              /\ Sorted Z.le ids /\ Permutation ids S
              /\ field "total_scraped" (mdata m')
                 = Some (JInt (Z.of_nat (List.length R))).
Proof.
  intros m S R force now io m' H.
  destruct (save_true_inv m S R force now io m' H) as [b ->].
  exists (sort_ints S); simpl.
  split; [reflexivity|]; split; [apply sort_ints_sorted|].
  split; [apply sort_ints_perm | reflexivity].
Qed.

Lemma save_sorted_ids_witness :
  exists ids,
    field "completed_ids" (mdata (fst (save demo_mgr [5; 3; 4]%Z [] false "t" demo_io)))
    = Some (JArr (map JInt ids))
    /\ Sorted Z.le ids /\ Permutation ids [5; 3; 4]%Z
    /\ field "total_scraped" (mdata (fst (save demo_mgr [5; 3; 4]%Z [] false "t" demo_io)))
       = Some (JInt (Z.of_nat (List.length (@nil json)))).
Proof.
  exact (save_sorted_ids demo_mgr [5; 3; 4]%Z [] false "t" demo_io
           (fst (save demo_mgr [5; 3; 4]%Z [] false "t" demo_io)) eq_refl).
Defined.

(** A [save] that returns False leaves the primary checkpoint file and
    [self.data] as they were. *)
Theorem save_failure_keeps_state : forall m S R force now io m',
  save m S R force now io = (m', false) ->
  primary (fs m') = primary (fs m) /\ mdata m' = mdata m.
Proof.
  intros m S R force now io m' H; unfold save in H.
  destruct (primary (fs m)) as [c|] eqn:Ep.
  - destruct c; destruct (copy_res io) as [|b];
      destruct (tmp_ok io), (replace_ok io); simpl in H; try discriminate H;
      injection H as <-; simpl; auto.
  - destruct (tmp_ok io), (replace_ok io); simpl in H; try discriminate H;
      injection H as <-; simpl; auto.
Qed.

Lemma save_failure_keeps_state_witness :
  primary (fs (fst (save demo_mgr [1%Z] [] false "t" (mk_io CopyOk false true))))
  = primary (fs demo_mgr).
Proof.
  exact (proj1 (save_failure_keeps_state demo_mgr [1%Z] [] false "t"
                  (mk_io CopyOk false true) _ eq_refl)).
Defined.

(** After a successful [save], the [.bak] holds what the primary file held
    before, unless the [.bak] path is a directory, which [shutil.copy2]
    copies into and which stays a directory; with no primary, the [.bak] is
    unchanged.  So when the primary held a checkpoint [v], the [.bak] was no
    directory, and the primary is then corrupted into text that is not JSON,
    [load] recovers [v]. *)
Theorem save_keeps_previous_in_backup : forall m S R force now io m',
  save m S R force now io = (m', true) ->
  backup (fs m') = match primary (fs m), backup (fs m) with
                   | None, b => b
                   | Some _, Some CDir => Some CDir
                   | Some c, _ => Some c
                   end
  /\ forall v, primary (fs m) = Some (CJson v) -> backup (fs m) <> Some CDir ->
       load (mk_mgr (mk_fs (Some CNotJson) (backup (fs m'))) (mdata m'))
       = Ok (v, mk_mgr (mk_fs (Some CNotJson) (backup (fs m'))) v).
Proof.
  intros m S R force now io m' H.
  assert (B : backup (fs m') = match primary (fs m), backup (fs m) with
                               | None, b => b
                               | Some _, Some CDir => Some CDir
                               | Some c, _ => Some c
                               end).
  { unfold save in H; destruct (primary (fs m)) as [c|].
    - destruct c; destruct (copy_res io); simpl in H; try discriminate H;
        destruct (tmp_ok io), (replace_ok io); simpl in H; try discriminate H;
        injection H as <-; simpl; unfold copied_backup;
        destruct (backup (fs m)) as [[]|]; reflexivity.
    - destruct (tmp_ok io), (replace_ok io); simpl in H; try discriminate H.
      injection H as <-; reflexivity. }
  split; [exact B|].
  intros v Hv Hb; rewrite Hv in B; unfold load, try_backup_recovery; simpl.
  rewrite B; destruct (backup (fs m)) as [[]|]; try reflexivity.
  congruence.
Qed.

Lemma save_keeps_previous_in_backup_witness :
  load (mk_mgr (mk_fs (Some CNotJson)
                  (backup (fs (fst (save (mk_mgr (mk_fs (Some (CJson demo_backup)) None)
                                                 demo_backup)
                                         [1%Z] [] false "t" demo_io)))))
               (mdata (fst (save (mk_mgr (mk_fs (Some (CJson demo_backup)) None)
                                         demo_backup)
                                 [1%Z] [] false "t" demo_io))))
  = Ok (demo_backup, mk_mgr (mk_fs (Some CNotJson) (Some (CJson demo_backup)))
                            demo_backup).
Proof.
  exact (proj2 (save_keeps_previous_in_backup
                  (mk_mgr (mk_fs (Some (CJson demo_backup)) None) demo_backup)
                  [1%Z] [] false "t" demo_io _ eq_refl)
           demo_backup eq_refl ltac:(discriminate)).
Defined.

(** When the primary file holds JSON that is not an object (a list, say),
    [load] returns the zero-value state but has already stored that value
    in [self.data], so a following [is_completed] raises AttributeError. *)
Theorem load_non_object_poisons_data : forall m v,
  primary (fs m) = Some (CJson v) -> (forall fields, v <> JObj fields) ->
  exists m', load m = Ok (zero_state, m') /\ mdata m' = v
  /\ forall z, is_completed m' z = Raise AttributeError.
Proof.
  intros m v Hp Hv; unfold load; rewrite Hp.
  exists (mk_mgr (fs m) v).
  destruct v as [| | | | | |fields]; try (exfalso; exact (Hv fields eq_refl));
    simpl; repeat split; reflexivity.
Qed.

Lemma load_non_object_poisons_data_witness :
  exists m', load (mk_mgr (mk_fs (Some (CJson (JArr [JInt 1]))) None) zero_state)
             = Ok (zero_state, m')
  /\ mdata m' = JArr [JInt 1]
  /\ forall z, is_completed m' z = Raise AttributeError.
Proof.
  exact (load_non_object_poisons_data
           (mk_mgr (mk_fs (Some (CJson (JArr [JInt 1]))) None) zero_state)
           (JArr [JInt 1]) eq_refl ltac:(discriminate)).
Defined.

(* ------------------------------------------------------------------------- *)
(** ** [IncrementalWriter] *)

Lemma flush_pending_outcome : forall w co xo,
  pending w <> [] ->
  (snd (flush w co xo) = None -> pending (fst (flush w co xo)) = [])
  /\ (snd (flush w co xo) <> None -> pending (fst (flush w co xo)) = pending w).
Proof.
  intros w co xo Hp; unfold flush.
  destruct (pending w) as [|d l] eqn:E; [congruence|].
  pose proof (append_csv_pending w (d :: l) co) as P1.
  destruct (append_csv w (d :: l) co) as [w1 [e|]]; simpl in P1; cbv beta iota.
  - split; intros H; cbn [fst snd] in *; [discriminate H | congruence].
  - pose proof (append_excel_pending w1 (d :: l) xo) as P2.
    destruct (append_excel w1 (d :: l) xo) as [w2 [e|]]; simpl in P2 |- *.
    + split; intros H; [discriminate H | congruence].
    + split; intros H; [reflexivity | congruence].
Qed.

(** [add_data] below the batch size only buffers: the files are untouched
    and the records are appended to the buffer.  Once the buffer reaches the
    batch size it is flushed: if the flush succeeds the buffer is empty, if
    it raises the buffer holds every record, old and new. *)
Theorem add_data_keeps_records : forall w data co xo,
  let '(w', r) := add_data w data co xo in
  ((List.length (pending w ++ data) < batch_size w)%nat ->
     w' = with_pending w (pending w ++ data) /\ r = None)
  /\ ((batch_size w <= List.length (pending w ++ data))%nat ->
      pending w ++ data <> [] ->
      (r = None -> pending w' = []) /\ (r <> None -> pending w' = pending w ++ data)).
Proof.
  intros w data co xo; unfold add_data.
  set (w1 := with_pending w (pending w ++ data)).
  assert (P : pending w1 = pending w ++ data) by reflexivity.
  destruct (batch_size w <=? List.length (pending w1))%nat eqn:E.
  - apply Nat.leb_le in E.
    pose proof (flush_pending_outcome w1 co xo) as F.
    destruct (flush w1 co xo) as [w' r]; simpl in F.
    split; [intros H; rewrite <- P in H; lia|].
    intros _ Hne; rewrite <- P in Hne |- *; exact (F Hne).
  - apply Nat.leb_gt in E.
    split; [intros _; split; reflexivity|].
    intros H; rewrite <- P in H; lia.
Qed.

Lemma add_data_keeps_records_witness :
  pending (fst (add_data demo_writer2 [demo_row] CsvOk (mk_xio true (Some OSError))))
  = [demo_row; demo_row].
Proof.
  pose proof (add_data_keeps_records demo_writer2 [demo_row] CsvOk
                (mk_xio true (Some OSError))) as H.
  destruct (add_data demo_writer2 [demo_row] CsvOk (mk_xio true (Some OSError)))
    as [w' r] eqn:E.
  assert (Hr : r <> None) by (vm_compute in E; injection E as _ <-; discriminate).
  simpl in H |- *.
  exact (proj2 (proj2 H ltac:(simpl; lia) ltac:(discriminate)) Hr).
Defined.

(** When [finalize] returns normally, the buffer is empty and every record
    that was pending has been appended to the CSV (after a header row when
    the file did not exist yet); an empty buffer leaves the CSV as it was. *)
Theorem finalize_drains_buffer : forall w co xo summary_left,
  let '(w', r) := finalize w co xo summary_left in
  r = None ->
  pending w' = []
  /\ csv_file w' = match pending w with
                   | [] => csv_file w
                   | p => if csv_exists w then csv_file w ++ csv_rows p
                          else header_row :: csv_rows p
                   end.
Proof.
  intros w co xo summary_left; unfold finalize.
  destruct (pending w) as [|d l] eqn:Ep.
  - destruct (excel_exists w); [destruct summary_left|]; simpl; auto.
  - unfold flush; rewrite Ep.
    destruct co as [|e rest]; simpl; [|discriminate].
    destruct (wb_save xo); simpl; [discriminate|].
    destruct summary_left; simpl; auto.
Qed.

Lemma finalize_drains_buffer_witness :
  csv_file (fst (finalize demo_writer CsvOk (mk_xio true None) None))
  = header_row :: csv_rows [demo_row].
Proof.
  pose proof (finalize_drains_buffer demo_writer CsvOk (mk_xio true None) None) as H.
  destruct (finalize demo_writer CsvOk (mk_xio true None) None) as [w' r] eqn:E.
  assert (Hr : r = None) by (vm_compute in E; injection E as _ <-; reflexivity).
  simpl in H |- *.
  exact (proj2 (H Hr)).
Defined.

(** When both files exist and the CSV append succeeds, but the existing
    workbook cannot be loaded, [flush] still succeeds: the CSV keeps its
    rows and gains the batch, while the workbook is rewritten with only the
    header and the batch, its earlier rows lost. *)
Theorem flush_workbook_reload_loses_rows : forall w xo,
  pending w <> [] -> csv_exists w = true -> excel_exists w = true ->
  wb_load_ok xo = false -> wb_save xo = None ->
  let '(w', r) := flush w CsvOk xo in
  r = None
  /\ csv_file w' = csv_file w ++ csv_rows (pending w)
  /\ xlsx_rows w' = map VStr HEADERS :: map xlsx_row (pending w).
Proof.
  intros w xo Hp Hc Hx Hl Hs; unfold flush.
  destruct (pending w) as [|d l]; [congruence|].
  unfold append_csv, append_excel; simpl; rewrite Hc, Hx, Hl, Hs; simpl.
  auto.
Qed.

Lemma flush_workbook_reload_loses_rows_witness :
  xlsx_rows (fst (flush demo_writer2 CsvOk (mk_xio false None)))
  = [map VStr HEADERS; xlsx_row demo_row].
Proof.
  pose proof (flush_workbook_reload_loses_rows demo_writer2 (mk_xio false None)
                ltac:(discriminate) eq_refl eq_refl eq_refl eq_refl) as H.
  destruct (flush demo_writer2 CsvOk (mk_xio false None)) as [w' r].
  exact (proj2 (proj2 H)).
Defined.

(* ------------------------------------------------------------------------- *)
(** ** [SkippedLogger] and the retry script's analysis *)

Lemma save_ledger_items : forall lg o, items (fst (save_ledger lg o)) = items lg.
Proof. intros lg [i|]; reflexivity. Qed.

Lemma find_index_replace_ids : forall id e l i,
  e_food_id e = id -> find_index id l = Some i ->
  map e_food_id (replace_at i e l) = map e_food_id l.
Proof.
  intros id e l; induction l as [|x r IH]; simpl; intros i He H; [discriminate|].
  destruct (e_food_id x =? id)%Z eqn:Ex.
  - injection H as <-; simpl; apply Z.eqb_eq in Ex; congruence.
  - destruct (find_index id r) as [j|]; simpl in H; [|discriminate].
    injection H as <-; simpl; rewrite (IH j He eq_refl); reflexivity.
Qed.

Lemma find_index_replace_In : forall id e l i,
  find_index id l = Some i -> In e (replace_at i e l).
Proof.
  intros id e l; induction l as [|x r IH]; simpl; intros i H; [discriminate|].
  destruct (e_food_id x =? id)%Z.
  - injection H as <-; left; reflexivity.
  - destruct (find_index id r) as [j|]; simpl in H; [|discriminate].
    injection H as <-; right; exact (IH j eq_refl).
Qed.

Lemma find_index_existsb : forall id l,
  match find_index id l with
  | Some _ => existsb (Z.eqb id) (map e_food_id l) = true
  | None => existsb (Z.eqb id) (map e_food_id l) = false
  end.
Proof.
  intros id l; induction l as [|x r IH]; simpl; [reflexivity|].
  rewrite (Z.eqb_sym id (e_food_id x)).
  destruct (e_food_id x =? id)%Z; [reflexivity|].
  destruct (find_index id r); simpl; exact IH.
Qed.

(** [log_skipped] keeps the ledger's ids in order: an id already logged keeps
    its position (its entry is replaced in place), a new id goes last.  This
    holds whether or not the file write succeeds. *)
Theorem log_skipped_ids : forall lg id err msg reason now so,
  map e_food_id (items (fst (log_skipped lg id err msg reason now so)))
  = if existsb (Z.eqb id) (map e_food_id (items lg))
    then map e_food_id (items lg)
    else map e_food_id (items lg) ++ [id].
Proof.
  intros lg id err msg reason now so; unfold log_skipped.
  rewrite save_ledger_items; simpl.
  pose proof (find_index_existsb id (items lg)) as F.
  destruct (find_index id (items lg)) as [i|] eqn:E; rewrite F.
  - apply (find_index_replace_ids id); [apply make_entry_id | exact E].
  - rewrite map_app; simpl; rewrite make_entry_id; reflexivity.
Qed.

(** [log_skipped] always puts the new entry into the in-memory ledger and
    re-raises what the file write raises.  After a successful write the file
    holds the in-memory ledger; after a failed one the file keeps its
    previous contents, so memory and file disagree. *)
Theorem log_skipped_file : forall lg id err msg reason now so,
  let '(lg', r) := log_skipped lg id err msg reason now so in
  In (make_entry id err msg reason now) (items lg')
  /\ r = so
  /\ log_file lg' = match so with None => items lg' | Some _ => log_file lg end.
Proof.
  intros lg id err msg reason now so; unfold log_skipped.
  assert (Hin : In (make_entry id err msg reason now)
                   (match find_index id (items lg) with
                    | Some i => replace_at i (make_entry id err msg reason now) (items lg)
                    | None => items lg ++ [make_entry id err msg reason now]
                    end)).
  { destruct (find_index id (items lg)) as [i|] eqn:E.
    - exact (find_index_replace_In id _ _ i E).
    - apply in_or_app; right; left; reflexivity. }
  destruct so as [i|]; simpl; auto.
Qed.

Lemma or_str_nonempty : forall a b, b <> "" -> or_str a b <> "".
Proof.
  intros [s|] b Hb; simpl; [|exact Hb].
  destruct (String.eqb s "") eqn:E; [exact Hb|].
  intros ->; discriminate E.
Qed.

(** Every ledger entry has a non-empty error type, error message and
    reason ("Unknown", "No error details" and "unknown" stand in for what is
    missing or empty). *)
Theorem make_entry_nonempty : forall id err msg reason now,
  let e := make_entry id err msg reason now in
  e_error_type e <> "" /\ e_error_message e <> "" /\ e_reason e <> "".
Proof.
  intros id err msg reason now; unfold make_entry.
  destruct err as [x|]; [|destruct (negb (String.eqb (or_str msg "") ""))];
    cbn [e_error_type e_error_message e_reason]; repeat split;
    apply or_str_nonempty; discriminate.
Qed.

Lemma filter_all : forall (A : Type) (p : A -> bool) l,
  existsb (fun x => negb (p x)) l = false -> filter p l = l.
Proof.
  intros A p l; induction l as [|x r IH]; simpl; intros H; [reflexivity|].
  apply orb_false_iff in H as [H1 H2].
  destruct (p x); simpl in H1; [rewrite IH; auto | discriminate].
Qed.

Lemma filter_length_lt : forall (A : Type) (p : A -> bool) l,
  (List.length (filter p l) <? List.length l)%nat
  = existsb (fun x => negb (p x)) l.
Proof.
  intros A p l; induction l as [|x r IH]; simpl; [reflexivity|].
  pose proof (filter_length_le p r) as Le.
  destruct (p x); simpl.
  - rewrite <- IH; destruct (List.length (filter p r) <? List.length r)%nat eqn:E.
    + apply Nat.ltb_lt in E; apply Nat.ltb_lt; lia.
    + apply Nat.ltb_ge in E; apply Nat.ltb_ge; lia.
  - apply Nat.ltb_lt; lia.
Qed.

Lemma entries_for_removed : forall id j l,
  entries_for j (filter (fun e => negb (e_food_id e =? id)%Z) l)
  = if (j =? id)%Z then [] else entries_for j l.
Proof.
  intros id j l; induction l as [|x r IH]; simpl.
  - destruct (j =? id)%Z; reflexivity.
  - destruct (e_food_id x =? id)%Z eqn:Ex; simpl.
    + rewrite IH; destruct (j =? id)%Z eqn:Ej; [reflexivity|].
      apply Z.eqb_eq in Ex; rewrite Ex, Z.eqb_sym, Ej; reflexivity.
    + destruct (e_food_id x =? j)%Z eqn:Exj; simpl; rewrite IH;
        destruct (j =? id)%Z eqn:Ej; try reflexivity.
      apply Z.eqb_eq in Exj, Ej; subst; rewrite Z.eqb_refl in Ex; discriminate.
Qed.

(** [remove_skipped] returns True exactly when some entry has the id; it
    removes every entry for it and keeps the others.  When nothing is
    removed the ledger is unchanged and the file is not written; otherwise
    the file write's outcome is passed on. *)
Theorem remove_skipped_effect : forall lg id so,
  let '(lg', found, r) := remove_skipped lg id so in
  found = existsb (fun e => (e_food_id e =? id)%Z) (items lg)
  /\ entries_for id (items lg') = []
  /\ (forall j, j <> id -> entries_for j (items lg') = entries_for j (items lg))
  /\ (found = false -> lg' = lg /\ r = None)
  /\ (found = true -> r = so
                      /\ log_file lg' = match so with
                                        | None => items lg'
                                        | Some _ => log_file lg
                                        end).
Proof.
  intros lg id so; unfold remove_skipped.
  set (p := fun e => negb (e_food_id e =? id)%Z).
  assert (Ex : existsb (fun e => negb (p e)) (items lg)
               = existsb (fun e => (e_food_id e =? id)%Z) (items lg))
    by (unfold p; induction (items lg) as [|e r IH]; simpl;
        [reflexivity | rewrite negb_involutive, IH; reflexivity]).
  assert (Hid : entries_for id (filter p (items lg)) = [])
    by (unfold p; rewrite entries_for_removed, Z.eqb_refl; reflexivity).
  assert (Hj : forall j, j <> id ->
            entries_for j (filter p (items lg)) = entries_for j (items lg))
    by (intros j Hne; unfold p; rewrite entries_for_removed;
        apply Z.eqb_neq in Hne; rewrite Hne; reflexivity).
  rewrite filter_length_lt, Ex.
  destruct (existsb (fun e => (e_food_id e =? id)%Z) (items lg)) eqn:Ef.
  - destruct so as [i|]; simpl;
      (split; [reflexivity|]); (split; [exact Hid|]); (split; [exact Hj|]);
      (split; intros Hf; [discriminate Hf | auto]).
  - simpl; (split; [reflexivity|]); (split; [exact Hid|]); (split; [exact Hj|]).
    split; intros Hf; [|discriminate Hf].
    split; [|reflexivity].
    rewrite filter_all by exact Ex; destruct lg; reflexivity.
Qed.

Lemma cget_cset : forall k k' n d,
  cget k (cset k' n d) = if String.eqb k k' then Some n else cget k d.
Proof.
  intros k k' n d; induction d as [|[k0 n0] d IH]; simpl.
  - reflexivity.
  - destruct (String.eqb k' k0) eqn:E1; simpl.
    + apply String.eqb_eq in E1; subst k0.
      destruct (String.eqb k k'); reflexivity.
    + rewrite IH; destruct (String.eqb k k0) eqn:E2, (String.eqb k k') eqn:E3;
        try reflexivity.
      apply String.eqb_eq in E2, E3; subst; rewrite String.eqb_refl in E1;
        discriminate.
Qed.

Lemma analyze_fold_count : forall l acc k,
  match cget k (fold_left (fun counts item =>
               let key := analysis_key item in
               cset key (match cget key counts with Some n => n | None => 0 end + 1)%Z
                    counts) l acc) with Some n => n | None => 0%Z end
  = ((match cget k acc with Some n => n | None => 0 end)
     + Z.of_nat (List.length (filter (fun e => String.eqb (analysis_key e) k) l)))%Z.
Proof.
  induction l as [|x r IH]; intros acc k; simpl; [lia|].
  rewrite IH, cget_cset, (String.eqb_sym k (analysis_key x)).
  destruct (String.eqb (analysis_key x) k) eqn:E; simpl.
  - apply String.eqb_eq in E; subst k; lia.
  - lia.
Qed.

(** [analyze_skipped_items] counts, for each key "error_type (reason)", the
    ledger entries with that key; a key no entry has is absent (count 0). *)
Theorem analyze_skipped_items_counts : forall skipped_items k,
  match cget k (analyze_skipped_items skipped_items) with
  | Some n => n
  | None => 0%Z
  end
  = Z.of_nat (List.length
                (filter (fun e => String.eqb (analysis_key e) k) skipped_items)).
Proof.
  intros skipped_items k; unfold analyze_skipped_items.
  rewrite analyze_fold_count; reflexivity.
Qed.

(* ------------------------------------------------------------------------- *)
(** ** [DataProcessor] *)

Lemma validate_row_parts : forall row,
  validate_row row = Ok true ->
  (forall f, In f REQUIRED_FIELDS -> check_required row f = [])
  /\ (forall v, dget "food_id" row = Some v -> exists z, py_int v = Ok z).
Proof.
  intros row H; unfold validate_row, validation_errors in H.
  destruct (check_numerics row NUMERIC_FIELDS) as [num|]; [|discriminate].
  destruct (dget "food_id" row) as [v|] eqn:Ef.
  - destruct (py_int v) as [z|e] eqn:Ei.
    + destruct (flat_map _ REQUIRED_FIELDS ++ num ++ []) eqn:Eall; [|discriminate].
      apply app_eq_nil in Eall as [Er _].
      split.
      * intros f Hf; destruct (check_required row f) as [|x xs] eqn:Ec; [reflexivity|].
        assert (In x (flat_map (check_required row) REQUIRED_FIELDS))
          by (apply in_flat_map; exists f; rewrite Ec; simpl; auto).
        rewrite Er in H0; contradiction.
      * intros v' Hv; injection Hv as <-; exists z; exact Ei.
    + destruct (caught_value_type e); [|discriminate].
      destruct (flat_map _ REQUIRED_FIELDS ++ num ++ [InvalidFoodId]) eqn:Eall;
        [|discriminate].
      apply app_eq_nil in Eall as [_ Eall]; apply app_eq_nil in Eall as [_ Eall];
        discriminate.
  - destruct (flat_map _ REQUIRED_FIELDS ++ num ++ []) eqn:Eall; [|discriminate].
    apply app_eq_nil in Eall as [Er _].
    split; [|intros v' Hv; discriminate].
    intros f Hf; destruct (check_required row f) as [|x xs] eqn:Ec; [reflexivity|].
    assert (In x (flat_map (check_required row) REQUIRED_FIELDS))
      by (apply in_flat_map; exists f; rewrite Ec; simpl; auto).
    rewrite Er in H0; contradiction.
Qed.

(** [validate_row] rejects a row in which a required field (food_name,
    measurement_unit, food_id) is missing, None or the empty string. *)
Theorem validate_row_requires_fields : forall row f,
  In f REQUIRED_FIELDS ->
  dget f row = None \/ dget f row = Some VNone \/ dget f row = Some (VStr "") ->
  validate_row row <> Ok true.
Proof.
  intros row f Hf Hv H.
  pose proof (proj1 (validate_row_parts row H) f Hf) as C.
  unfold check_required in C.
  destruct Hv as [E|[E|E]]; rewrite E in C; discriminate C.
Qed.

Lemma validate_row_requires_fields_witness :
  validate_row [("food_name", VStr "rice"); ("food_id", VInt 3)] <> Ok true.
Proof.
  apply (validate_row_requires_fields _ "measurement_unit");
    [simpl; auto | left; reflexivity].
Defined.

(** Every row [process_batch] outputs has an int food_id, and its food_name
    and measurement_unit are present, not None and not the empty string. *)
Theorem process_batch_rows_identified : forall float_str rows out r,
  process_batch float_str rows = Ok out -> In r out ->
  (exists z, dget "food_id" r = Some (VInt z))
  /\ forall f, In f text_fields ->
       exists v, dget f r = Some v /\ v <> VNone /\ v <> VStr "".
Proof.
  intros float_str rows out r H Hr.
  destruct (process_batch_In float_str rows out r H Hr) as [row [_ [Hc Hok]]].
  destruct (validate_row_parts r Hok) as [Hreq Hfid].
  split.
  - pose proof (Hreq "food_id" ltac:(simpl; auto)) as C.
    unfold check_required in C.
    destruct (dget "food_id" r) as [v|] eqn:Ef; [|discriminate C].
    destruct (Hfid v eq_refl) as [z Hz].
    pose proof (proj2 (clean_data_text_food_id float_str row r Hc)) as S.
    unfold food_id_shape in S; rewrite Ef in S.
    destruct v; try (eexists; reflexivity);
      destruct S as [e [He _]]; congruence.
  - intros f Hf; pose proof (Hreq f ltac:(simpl in Hf |- *; tauto)) as C.
    unfold check_required in C.
    destruct (dget f r) as [v|]; [|discriminate C].
    exists v; split; [reflexivity|].
    destruct v; simpl in C; try (split; discriminate).
    destruct (String.eqb s "") eqn:Es; [discriminate C|].
    split; [discriminate|]; intros E; injection E as ->; discriminate Es.
Qed.

Lemma process_batch_rows_identified_witness :
  exists z, dget "food_id"
              (hd [] (match process_batch demo_float_str
                              [demo_raw_row (VStr "2.5")] with
                      | Ok out => out | Raise _ => [] end))
            = Some (VInt z).
Proof.
  exact (proj1 (process_batch_rows_identified demo_float_str
                  [demo_raw_row (VStr "2.5")] _ _ eq_refl (or_introl eq_refl))).
Defined.

Lemma dset_keys : forall k v d,
  dget k d <> None -> map fst (dset k v d) = map fst d.
Proof.
  intros k v d; induction d as [|[k0 v0] d IH]; simpl; intros H; [congruence|].
  destruct (String.eqb k k0); simpl; [reflexivity|].
  rewrite (IH H); reflexivity.
Qed.

Lemma clean_text_field_keys : forall float_str d f,
  map fst (clean_text_field float_str d f) = map fst d.
Proof.
  intros float_str d f; unfold clean_text_field.
  destruct (dget f d) as [v|] eqn:E; [|reflexivity].
  destruct (truthy v); [apply dset_keys; congruence | reflexivity].
Qed.

Lemma clean_numeric_field_keys : forall d f d',
  clean_numeric_field d f = Ok d' -> map fst d' = map fst d.
Proof.
  intros d f d' H; unfold clean_numeric_field in H.
  destruct (dget f d) as [value|] eqn:Ef; [|injection H as <-; reflexivity].
  assert (K : forall v, map fst (dset f v d) = map fst d)
    by (intros v; apply dset_keys; congruence).
  destruct (is_none value || is_empty_str value); [injection H as <-; apply K|].
  destruct (match value with VStr s => _ | _ => _ end) as [v|e].
  - injection H as <-; apply K.
  - destruct (caught_value_type e); [injection H as <-; apply K | discriminate].
Qed.

Lemma clean_numeric_fields_keys : forall fields d d',
  clean_numeric_fields d fields = Ok d' -> map fst d' = map fst d.
Proof.
  induction fields as [|f fs IH]; simpl; intros d d' H; [injection H as <-; reflexivity|].
  destruct (clean_numeric_field d f) as [d1|] eqn:E; [|discriminate].
  rewrite (IH d1 d' H); exact (clean_numeric_field_keys d f d1 E).
Qed.

(** [clean_data] neither adds nor removes keys and keeps their order, and it
    leaves every field other than the text fields, the numeric fields and
    food_id as it was. *)
Theorem clean_data_keys : forall float_str row r,
  clean_data float_str row = Ok r ->
  map fst r = map fst row
  /\ forall g, ~ In g text_fields -> ~ In g NUMERIC_FIELDS -> g <> "food_id" ->
       dget g r = dget g row.
Proof.
  intros float_str row r H; unfold clean_data in H.
  set (t := fold_left (clean_text_field float_str) text_fields row) in H.
  assert (Kt : map fst t = map fst row)
    by (subst t; simpl; rewrite !clean_text_field_keys; reflexivity).
  assert (Gt : forall g, ~ In g text_fields -> dget g t = dget g row).
  { intros g Hg; subst t; simpl.
    rewrite !clean_text_field_other by (intros ->; apply Hg; simpl; auto).
    reflexivity. }
  destruct (clean_numeric_fields t NUMERIC_FIELDS) as [c|] eqn:E; [|discriminate].
  assert (Kc : map fst c = map fst row)
    by (rewrite (clean_numeric_fields_keys _ t c E); exact Kt).
  assert (Gc : forall g, ~ In g text_fields -> ~ In g NUMERIC_FIELDS ->
                 dget g c = dget g row)
    by (intros g H1 H2; rewrite (clean_numeric_fields_other _ t c g E H2);
        exact (Gt g H1)).
  destruct (dget "food_id" c) as [v|] eqn:Ef.
  - destruct (py_int v) as [z|e].
    + injection H as <-; split.
      * rewrite dset_keys by congruence; exact Kc.
      * intros g H1 H2 H3; rewrite dget_dset.
        apply String.eqb_neq in H3; rewrite H3; exact (Gc g H1 H2).
    + destruct (caught_value_type e); [|discriminate].
      injection H as <-; split; [exact Kc | intros g H1 H2 _; exact (Gc g H1 H2)].
  - injection H as <-; split; [exact Kc | intros g H1 H2 _; exact (Gc g H1 H2)].
Qed.

Lemma clean_data_keys_witness :
  match clean_data demo_float_str (demo_raw_row (VStr "-5") ++ [("source", VStr " x ")]) with
  | Ok r => dget "source" r = Some (VStr " x ")
  | Raise _ => False
  end.
Proof.
  destruct (clean_data demo_float_str (demo_raw_row (VStr "-5") ++ [("source", VStr " x ")]))
    as [r|e] eqn:E; [|discriminate].
  rewrite (proj2 (clean_data_keys _ _ r E) "source"
             ltac:(simpl; intuition discriminate)
             ltac:(simpl; intuition discriminate) ltac:(discriminate)).
  reflexivity.
Defined.

(* ------------------------------------------------------------------------- *)
(** ** The scrape loop *)

Lemma scrape_one_completed : forall env st id,
  snd (scrape_one env st id) = true ->
  completed (fst (scrape_one env st id))
  = completed st ++ (if has_records (s_scrape env id) then [id] else []).
Proof.
  intros env st id; unfold_step.
  destruct (s_print env PProgress id); [intros H; discriminate H|].
  destruct (s_scrape env id) as [[|r rs]|e|]; cbn [has_records]; split_cases;
    simpl; rewrite ?app_nil_r; intros H; try discriminate H; reflexivity.
Qed.

Lemma scrape_one_add_raises : forall env st id,
  snd (scrape_one env st id) = true ->
  has_records (s_scrape env id) = true -> s_add_raises env id = true ->
  In (ELogSkipped id "exception") (trace (fst (scrape_one env st id))).
Proof.
  intros env st id; unfold_step.
  destruct (s_print env PProgress id); [intros H; discriminate H|].
  intros Hgo Hr Ha.
  destruct (s_scrape env id) as [[|r rs]|e|]; try discriminate Hr.
  rewrite Ha in Hgo |- *; split_cases; simpl; rewrite !in_app_iff; simpl; auto.
Qed.

(** Every [add_data] and [log_skipped] call of [scrape_all] is for an id of
    the list it was given that was not already completed: completed ids are
    never scraped again. *)
Theorem scrape_all_skips_completed : forall env completed_ids food_ids ev id,
  In ev (fst (scrape_all env completed_ids food_ids)) -> event_id ev = Some id ->
  In id food_ids /\ ~ In id completed_ids.
Proof.
  intros env completed_ids food_ids ev id H Hid; unfold scrape_all in H.
  pose proof (scrape_loop_trace env (ids_to_scrape completed_ids food_ids)
                (mk_ls completed_ids []) ev) as T.
  destruct (scrape_loop env (mk_ls completed_ids []) (ids_to_scrape completed_ids food_ids))
    as [st fin].
  simpl in T.
  assert (Hst : In ev (trace st)).
  { destruct fin; simpl in H; rewrite !in_app_iff in H; simpl in H;
      intuition (subst; discriminate). }
  destruct (T Hst) as [[]|[j [Hj E]]].
  assert (j = id) as <-.
  { destruct E as [->|[[r ->]| ->]]; simpl in Hid; congruence. }
  unfold ids_to_scrape in Hj; apply filter_In in Hj as [Hin Hn].
  split; [exact Hin|]; intros Hc.
  apply (proj2 (existsb_Zeqb_In j completed_ids)) in Hc.
  rewrite Hc in Hn; discriminate Hn.
Qed.

Lemma scrape_all_skips_completed_witness :
  In 2%Z [1; 2]%Z /\ ~ In 2%Z [1%Z].
Proof.
  apply (scrape_all_skips_completed demo_scrape_env [1%Z] [1; 2]%Z (EAddData 2) 2).
  - simpl; auto.
  - reflexivity.
Defined.

(** When the scrape loop runs through all its ids, [completed_ids] is the
    initial list followed, in order, by every id whose scrape returned
    records; this includes an id whose [add_data] raised, which is then
    also logged as skipped with reason "exception". *)
Theorem scrape_loop_completed_ids : forall env ids st,
  snd (scrape_loop env st ids) = true ->
  completed (fst (scrape_loop env st ids))
  = completed st ++ filter (fun id => has_records (s_scrape env id)) ids
  /\ forall id, In id ids -> has_records (s_scrape env id) = true ->
       s_add_raises env id = true ->
       In (ELogSkipped id "exception") (trace (fst (scrape_loop env st ids))).
Proof.
  intros env ids; induction ids as [|id rest IH]; simpl; intros st H.
  - split; [rewrite app_nil_r; reflexivity | intros _ []].
  - pose proof (scrape_one_completed env st id) as C.
    pose proof (scrape_one_add_raises env st id) as A.
    destruct (scrape_one env st id) as [st1 go]; simpl in C, A.
    destruct go; [|discriminate H].
    specialize (C eq_refl); specialize (A eq_refl).
    destruct (IH st1 H) as [IH1 IH2]; split.
    + rewrite IH1, C, <- app_assoc.
      destruct (has_records (s_scrape env id)); reflexivity.
    + intros j [<-|Hj] Hr Ha.
      * apply scrape_loop_keeps, A; assumption.
      * exact (IH2 j Hj Hr Ha).
Qed.

Lemma scrape_loop_completed_ids_witness :
  completed (fst (scrape_loop demo_scrape_env (mk_ls [7%Z] []) [1; 2]%Z))
  = [7; 1; 2]%Z.
Proof.
  exact (proj1 (scrape_loop_completed_ids demo_scrape_env [1; 2]%Z
                  (mk_ls [7%Z] []) eq_refl)).
Defined.
